(** * School directory: validation, filtering and suggestions

    A shallow embedding of [src/school.tsx]: the add-school form
    ([validateForm], [handleImageChange], [handleSubmit]), the mock
    persistence gateway ([mockAPI.addSchool]) and the listing view's
    filter engine ([uniqueValues], [filteredSchools], [getSuggestions]).

    Strings are sequences of code units.  The embedding covers the code
    units below 256 (Latin-1), a fragment closed under [toLowerCase] and
    [trim]; a code unit is an [ascii] and a string a [string]. *)

From Stdlib Require Import ZArith NArith List String Ascii Bool Lia DecimalString.
From stdpp Require Import gmap strings list fin_maps sorting.

Local Open Scope string_scope.
Local Open Scope list_scope.

(** ** Code units and the string primitives the source calls *)

Definition code (c : ascii) : N := N_of_ascii c.

(** ECMAScript [WhiteSpace] and [LineTerminator] code points below 256:
    TAB, LF, VT, FF, CR, SP and NBSP.  Both [String.prototype.trim] and
    the regular-expression class [\s] use this set. *)
Definition isWhiteSpace (c : ascii) : bool :=
  match code c with
  | 9 | 10 | 11 | 12 | 13 | 32 | 160 => true
  | _ => false
  end%N.

(** [\d]: the ten ASCII digits. *)
Definition isDigit (c : ascii) : bool :=
  ((48 <=? code c) && (code c <=? 57))%N.

(** Lower-case mapping of one code unit: A-Z, and the Latin-1 capitals
    U+00C0..U+00DE except the multiplication sign U+00D7. *)
Definition toLowerCaseChar (c : ascii) : ascii :=
  let n := code c in
  if ((65 <=? n) && (n <=? 90)
      || (192 <=? n) && (n <=? 222) && negb (n =? 215))%N
  then ascii_of_N (n + 32)
  else c.

Fixpoint toLowerCase (s : string) : string :=
  match s with
  | EmptyString => EmptyString
  | String c r => String (toLowerCaseChar c) (toLowerCase r)
  end.

Fixpoint trimStart (s : string) : string :=
  match s with
  | EmptyString => EmptyString
  | String c r => if isWhiteSpace c then trimStart r else s
  end.

Fixpoint trimEnd (s : string) : string :=
  match s with
  | EmptyString => EmptyString
  | String c r =>
      match trimEnd r with
      | EmptyString => if isWhiteSpace c then EmptyString else String c EmptyString
      | r' => String c r'
      end
  end.

Definition trim (s : string) : string := trimEnd (trimStart s).

(** [s.startsWith(p)] and [s.includes(p)]. *)
Definition startsWith (s p : string) : bool := String.prefix p s.

Fixpoint includes (s p : string) : bool :=
  String.prefix p s
  || match s with
     | EmptyString => false
     | String _ r => includes r p
     end.

(** JavaScript truthiness of a string: every string but the empty one. *)
Definition truthy (s : string) : bool := negb (String.eqb s EmptyString).

(** ** Data model *)

Module SchoolBase.
Record t : Type := mk {
  name : string;
  address : string;
  city : string;
  state : string;
  contact : string;
  email_id : string;
  image : option string
}.
End SchoolBase.

Module School.
Record t : Type := mk {
  id : Z;
  name : string;
  address : string;
  city : string;
  state : string;
  contact : string;
  email_id : string;
  image : option string;
  createdAt : string
}.
End School.

(** The literal type ['name' | 'city' | 'state']. *)
Inductive FilterField : Type := FName | FCity | FState.

Module Filters.
Record t : Type := mk { name : string; city : string; state : string }.

Definition get (field : FilterField) (f : t) : string :=
  match field with
  | FName => name f
  | FCity => city f
  | FState => state f
  end.

(** [{ ...prev, [field]: value }] *)
Definition set (field : FilterField) (value : string) (f : t) : t :=
  match field with
  | FName => mk value (city f) (state f)
  | FCity => mk (name f) value (state f)
  | FState => mk (name f) (city f) value
  end.

Definition empty : t := mk "" "" "".
End Filters.

Definition schoolField (field : FilterField) (s : School.t) : string :=
  match field with
  | FName => School.name s
  | FCity => School.city s
  | FState => School.state s
  end.

(** ** Filter engine (component [ShowSchools]) *)

(** [new Set(xs)]: a set remembers insertion order and ignores a value
    it already holds; [Array.from] lists it in that order. *)
Definition Set_has (x : string) (s : list string) : bool :=
  existsb (String.eqb x) s.

Definition Set_add (s : list string) (x : string) : list string :=
  if Set_has x s then s else s ++ [x].

Definition Set_from (xs : list string) : list string :=
  fold_left Set_add xs [].

Definition uniqueValues (schools : list School.t) (field : FilterField)
  : list string :=
  Set_from (List.map (schoolField field) schools).

Definition filteredSchools (schools : list School.t) (filters : Filters.t)
  : list School.t :=
  let filtered := schools in
  let filtered :=
    if truthy (trim (Filters.name filters)) then
      let n := toLowerCase (Filters.name filters) in
      List.filter (fun s => includes (toLowerCase (School.name s)) n) filtered
    else filtered in
  let filtered :=
    if truthy (trim (Filters.city filters)) then
      let c := toLowerCase (Filters.city filters) in
      List.filter (fun s => includes (toLowerCase (School.city s)) c) filtered
    else filtered in
  let filtered :=
    if truthy (trim (Filters.state filters)) then
      let st := toLowerCase (Filters.state filters) in
      List.filter (fun s => includes (toLowerCase (School.state s)) st) filtered
    else filtered in
  filtered.

Definition getSuggestions (schools : list School.t) (tempFilters : Filters.t)
    (field : FilterField) : list string :=
  let value := toLowerCase (Filters.get field tempFilters) in
  if negb (truthy value) then []
  else
    firstn 5
      (List.filter (fun item => startsWith (toLowerCase item) value)
         (uniqueValues schools field)).

(** ** Regular expressions

    The two patterns of [validateForm] are anchored at both ends ([^]
    and [$], no flags), so [RegExp.prototype.test] answers whether the
    whole string belongs to the pattern's language.  Membership is
    decided by derivatives. *)

Inductive Regex : Type :=
| Void
| Eps
| Class (p : ascii -> bool)
| Seq (r1 r2 : Regex)
| Alt (r1 r2 : Regex)
| Star (r : Regex).

Definition Lit (c : ascii) : Regex := Class (Ascii.eqb c).
Definition Plus (r : Regex) : Regex := Seq r (Star r).

(** [r{n}] *)
Fixpoint Repeat (n : nat) (r : Regex) : Regex :=
  match n with
  | O => Eps
  | S n' => Seq r (Repeat n' r)
  end.

Fixpoint nullable (r : Regex) : bool :=
  match r with
  | Void => false
  | Eps => true
  | Class _ => false
  | Seq r1 r2 => nullable r1 && nullable r2
  | Alt r1 r2 => nullable r1 || nullable r2
  | Star _ => true
  end.

Fixpoint deriv (c : ascii) (r : Regex) : Regex :=
  match r with
  | Void => Void
  | Eps => Void
  | Class p => if p c then Eps else Void
  | Seq r1 r2 =>
      if nullable r1 then Alt (Seq (deriv c r1) r2) (deriv c r2)
      else Seq (deriv c r1) r2
  | Alt r1 r2 => Alt (deriv c r1) (deriv c r2)
  | Star r1 => Seq (deriv c r1) (Star r1)
  end.

Fixpoint matches (r : Regex) (w : list ascii) : bool :=
  match w with
  | [] => nullable r
  | c :: w' => matches (deriv c r) w'
  end.

Definition test (r : Regex) (s : string) : bool :=
  matches r (list_ascii_of_string s).

(** [[^\s@]] *)
Definition notSpaceNorAt (c : ascii) : bool :=
  negb (isWhiteSpace c || Ascii.eqb c "@").

(** [/^\d{10}$/] *)
Definition CONTACT_RE : Regex := Repeat 10 (Class isDigit).

(** [/^[^\s@]+@[^\s@]+\.[^\s@]+$/] *)
Definition EMAIL_RE : Regex :=
  Seq (Plus (Class notSpaceNorAt))
    (Seq (Lit "@")
       (Seq (Plus (Class notSpaceNorAt))
          (Seq (Lit ".") (Plus (Class notSpaceNorAt))))).

(** ** Validation engine (component [AddSchoolForm]) *)

(** [FormErrors]: a partial map from the keys of [SchoolBase], and
    ['submit'], to messages. *)
Abbreviation FormErrors := (gmap string string).

Definition MSG_NAME_REQUIRED : string := "School name is required".
Definition MSG_ADDRESS_REQUIRED : string := "Address is required".
Definition MSG_CITY_REQUIRED : string := "City is required".
Definition MSG_STATE_REQUIRED : string := "State is required".
Definition MSG_CONTACT_REQUIRED : string := "Contact number is required".
Definition MSG_CONTACT_FORMAT : string := "Contact must be 10 digits".
Definition MSG_EMAIL_REQUIRED : string := "Email is required".
Definition MSG_EMAIL_FORMAT : string := "Invalid email format".
Definition MSG_IMAGE_REQUIRED : string := "School image is required".
Definition MSG_IMAGE_TOO_LARGE : string := "Image size must be less than 5MB".
Definition MSG_SUBMIT_FAILED : string := "Failed to add school. Please try again.".

(** Truthiness of [string | null]. *)
Definition truthyImage (i : option string) : bool :=
  match i with
  | Some s => truthy s
  | None => false
  end.

Record FormState : Type := mkFormState {
  formData : SchoolBase.t;
  errors : FormErrors;
  loading : bool;
  imagePreview : option string
}.

Definition initialFormState : FormState :=
  mkFormState (SchoolBase.mk "" "" "" "" "" "" None) ∅ false None.

Definition setErrors (e : FormErrors) (st : FormState) : FormState :=
  mkFormState (formData st) e (loading st) (imagePreview st).

Definition setLoading (b : bool) (st : FormState) : FormState :=
  mkFormState (formData st) (errors st) b (imagePreview st).

(** The object [newErrors] that [validateForm] builds. *)
Definition newErrors (d : SchoolBase.t) : FormErrors :=
  let e : FormErrors := ∅ in
  let e := if negb (truthy (trim (SchoolBase.name d)))
           then <["name" := MSG_NAME_REQUIRED]> e else e in
  let e := if negb (truthy (trim (SchoolBase.address d)))
           then <["address" := MSG_ADDRESS_REQUIRED]> e else e in
  let e := if negb (truthy (trim (SchoolBase.city d)))
           then <["city" := MSG_CITY_REQUIRED]> e else e in
  let e := if negb (truthy (trim (SchoolBase.state d)))
           then <["state" := MSG_STATE_REQUIRED]> e else e in
  let e := if negb (truthy (trim (SchoolBase.contact d)))
           then <["contact" := MSG_CONTACT_REQUIRED]> e
           else if negb (test CONTACT_RE (SchoolBase.contact d))
           then <["contact" := MSG_CONTACT_FORMAT]> e else e in
  let e := if negb (truthy (trim (SchoolBase.email_id d)))
           then <["email_id" := MSG_EMAIL_REQUIRED]> e
           else if negb (test EMAIL_RE (SchoolBase.email_id d))
           then <["email_id" := MSG_EMAIL_FORMAT]> e else e in
  let e := if negb (truthyImage (SchoolBase.image d))
           then <["image" := MSG_IMAGE_REQUIRED]> e else e in
  e.

(** [validateForm]: stores the errors and answers whether there are none. *)
Definition validateForm (st : FormState) : FormState * bool :=
  let e := newErrors (formData st) in
  (setErrors e st, Nat.eqb (size e) 0).

(** ** Image gate ([handleImageChange]) *)

(** A [File]: its size in bytes, and what [FileReader.readAsDataURL]
    leaves in [reader.result] when [onloadend] fires ([null] when the
    read fails). *)
Record File : Type := mkFile {
  size_bytes : Z;
  readResult : option string
}.

Definition setImage (i : option string) (d : SchoolBase.t) : SchoolBase.t :=
  SchoolBase.mk (SchoolBase.name d) (SchoolBase.address d) (SchoolBase.city d)
    (SchoolBase.state d) (SchoolBase.contact d) (SchoolBase.email_id d) i.

(** [files] is [e.target.files]: [null] or a list. *)
Definition handleImageChange (files : option (list File)) (st : FormState)
  : FormState :=
  match files with
  | None | Some [] => st
  | Some (file :: _) =>
      if (size_bytes file >? 5000000)%Z then
        setErrors (<["image" := MSG_IMAGE_TOO_LARGE]> (errors st)) st
      else
        (* reader.onloadend *)
        let result := readResult file in
        mkFormState (setImage result (formData st))
          (<["image" := ""]> (errors st)) (loading st) result
  end.

(** ** Persistence gateway ([mockAPI.addSchool]) *)

Inductive Exception : Type := SyntaxError | TypeError | QuotaExceededError.

Inductive Result (A : Type) : Type :=
| Ok (a : A)
| Throw (e : Exception).
Arguments Ok {A} a.
Arguments Throw {A} e.

(** What [localStorage.getItem('schools')] holds, read through
    [JSON.parse(... || '[]')]: nothing (or the empty text), a text that
    is not JSON, a JSON value that is not an array, or an array of
    records. *)
Inductive StoredItem : Type :=
| NoItem
| NotJSON
| NotArray
| Records (schools : list School.t).

(** [acceptsWrite] is the storage layer's answer to the next [setItem]:
    [false] when it throws (quota exceeded, storage disabled). *)
Record LocalStorage : Type := mkLocalStorage {
  item_schools : StoredItem;
  acceptsWrite : bool
}.

(** A [Date], by its UTC components. *)
Record Date : Type := mkDate {
  fullYear : N;
  month : N;
  date : N;
  hours : N;
  minutes : N;
  seconds : N;
  milliseconds : N
}.

Fixpoint zeros (n : nat) : string :=
  match n with
  | O => EmptyString
  | S n' => String "0" (zeros n')
  end.

Definition pad (width : nat) (n : N) : string :=
  let digits := NilZero.string_of_uint (N.to_uint n) in
  (zeros (width - String.length digits) ++ digits)%string.

(** [YYYY-MM-DDTHH:mm:ss.sssZ], with the expanded year [+YYYYYY] past 9999. *)
Definition toISOString (d : Date) : string :=
  ((if (fullYear d <=? 9999)%N then pad 4 (fullYear d) else "+" ++ pad 6 (fullYear d))
   ++ "-" ++ pad 2 (month d) ++ "-" ++ pad 2 (date d)
   ++ "T" ++ pad 2 (hours d) ++ ":" ++ pad 2 (minutes d) ++ ":" ++ pad 2 (seconds d)
   ++ "." ++ pad 3 (milliseconds d) ++ "Z")%string.

(** [{ id, ...schoolData, createdAt }] *)
Definition mkSchool (id : Z) (d : SchoolBase.t) (createdAt : string) : School.t :=
  School.mk id (SchoolBase.name d) (SchoolBase.address d) (SchoolBase.city d)
    (SchoolBase.state d) (SchoolBase.contact d) (SchoolBase.email_id d)
    (SchoolBase.image d) createdAt.

Definition parseSchools (i : StoredItem) : Result (list School.t) :=
  match i with
  | NoItem => Ok []
  | NotJSON => Throw SyntaxError
  | NotArray => Throw TypeError
  | Records l => Ok l
  end.

(** [now] is the value of [new Date()] when the record is built. *)
Definition addSchool (now : Date) (storage : LocalStorage) (schoolData : SchoolBase.t)
  : Result (School.t * LocalStorage) :=
  match parseSchools (item_schools storage) with
  | Throw e => Throw e
  | Ok schools =>
      let newSchool :=
        mkSchool (Z.of_nat (length schools) + 1) schoolData (toISOString now) in
      let schools := schools ++ [newSchool] in
      if acceptsWrite storage
      then Ok (newSchool, mkLocalStorage (Records schools) (acceptsWrite storage))
      else Throw QuotaExceededError
  end.

(** What [JSON.parse] hands to a caller that does not look at it: an
    array of records, or some other JSON value. *)
Inductive JSONValue : Type :=
| JArray (records : list School.t)
| JOther.

(** [mockAPI.getSchools] returns the parsed value as it is; only a text
    that is not JSON makes it throw. *)
Definition getSchools (storage : LocalStorage) : Result JSONValue :=
  match item_schools storage with
  | NoItem => Ok (JArray [])
  | NotJSON => Throw SyntaxError
  | NotArray => Ok JOther
  | Records l => Ok (JArray l)
  end.

(** ** Submission ([handleSubmit]) *)

(** The outcome of one submission: the form's state, the storage, and
    whether [onSuccess] was called. *)
Record Submitted : Type := mkSubmitted {
  form : FormState;
  storage_after : LocalStorage;
  onSuccess : bool
}.

Definition handleSubmit (now : Date) (storage : LocalStorage) (st : FormState)
  : Submitted :=
  let (st1, valid) := validateForm st in
  if negb valid then mkSubmitted st1 storage false
  else
    let st2 := setLoading true st1 in
    match addSchool now storage (formData st) with
    | Ok (_, storage') =>
        mkSubmitted (setLoading false st2) storage' true
    | Throw _ =>
        let st3 := setErrors {[ "submit" := MSG_SUBMIT_FAILED ]} st2 in
        mkSubmitted (setLoading false st3) storage false
    end.

(** ** The specification's scenario *)

Definition oakHill : School.t :=
  School.mk 1 "Oak Hill" "1 Main St" "Austin" "TX" "5125550100"
    "office@oakhill.edu" None "2024-01-01T00:00:00.000Z".
Definition oakridge : School.t :=
  School.mk 2 "Oakridge" "2 Elm St" "Dallas" "TX" "2145550100"
    "office@oakridge.edu" None "2024-01-02T00:00:00.000Z".

Definition validCandidate : SchoolBase.t :=
  SchoolBase.mk "Oak Hill" "1 Main St" "Austin" "TX" "5125550100"
    "office@oakhill.edu" (Some "data:image/png;base64,iVBORw0KGgo=").

Definition noon : Date := mkDate 2024 3 9 12 0 0 0.

(** ** Editing the form ([handleChange]) *)

(** The [name] attributes of the inputs wired to [handleChange]. *)
Inductive TextField : Type :=
  TName | TAddress | TCity | TState | TContact | TEmail_id.

Definition fieldKey (field : TextField) : string :=
  match field with
  | TName => "name"
  | TAddress => "address"
  | TCity => "city"
  | TState => "state"
  | TContact => "contact"
  | TEmail_id => "email_id"
  end.

(** [prev[field]] *)
Definition getField (field : TextField) (d : SchoolBase.t) : string :=
  match field with
  | TName => SchoolBase.name d
  | TAddress => SchoolBase.address d
  | TCity => SchoolBase.city d
  | TState => SchoolBase.state d
  | TContact => SchoolBase.contact d
  | TEmail_id => SchoolBase.email_id d
  end.

(** [{ ...prev, [field]: value }] *)
Definition setField (field : TextField) (value : string) (d : SchoolBase.t)
  : SchoolBase.t :=
  match field with
  | TName =>
      SchoolBase.mk value (SchoolBase.address d) (SchoolBase.city d)
        (SchoolBase.state d) (SchoolBase.contact d) (SchoolBase.email_id d)
        (SchoolBase.image d)
  | TAddress =>
      SchoolBase.mk (SchoolBase.name d) value (SchoolBase.city d)
        (SchoolBase.state d) (SchoolBase.contact d) (SchoolBase.email_id d)
        (SchoolBase.image d)
  | TCity =>
      SchoolBase.mk (SchoolBase.name d) (SchoolBase.address d) value
        (SchoolBase.state d) (SchoolBase.contact d) (SchoolBase.email_id d)
        (SchoolBase.image d)
  | TState =>
      SchoolBase.mk (SchoolBase.name d) (SchoolBase.address d) (SchoolBase.city d)
        value (SchoolBase.contact d) (SchoolBase.email_id d) (SchoolBase.image d)
  | TContact =>
      SchoolBase.mk (SchoolBase.name d) (SchoolBase.address d) (SchoolBase.city d)
        (SchoolBase.state d) value (SchoolBase.email_id d) (SchoolBase.image d)
  | TEmail_id =>
      SchoolBase.mk (SchoolBase.name d) (SchoolBase.address d) (SchoolBase.city d)
        (SchoolBase.state d) (SchoolBase.contact d) value (SchoolBase.image d)
  end.

(** [errors[field]] is truthy: the key is there with a non-empty message. *)
Definition truthyError (e : FormErrors) (key : string) : bool :=
  match e !! key with
  | Some m => truthy m
  | None => false
  end.

Definition handleChange (field : TextField) (value : string) (st : FormState)
  : FormState :=
  let data :=
    if String.eqb (getField field (formData st)) value then formData st
    else setField field value (formData st) in
  let errs :=
    if truthyError (errors st) (fieldKey field)
    then <[fieldKey field := ""]> (errors st)
    else errors st in
  mkFormState data errs (loading st) (imagePreview st).

(** ** The listing view (component [ShowSchools]) *)

Module Shown.
Record t : Type := mk { name : bool; city : bool; state : bool }.

Definition get (field : FilterField) (f : t) : bool :=
  match field with
  | FName => name f
  | FCity => city f
  | FState => state f
  end.

(** [{ ...prev, [field]: value }] *)
Definition set (field : FilterField) (value : bool) (f : t) : t :=
  match field with
  | FName => mk value (city f) (state f)
  | FCity => mk (name f) value (state f)
  | FState => mk (name f) (city f) value
  end.

Definition none : t := mk false false false.
End Shown.

(** What the view renders below the search panel. *)
Inductive View : Type :=
| Spinner
| NoSchoolsAddedYet
| NoSchoolsFound
| Grid (cards : list School.t).

Module ShowSchools.
Record state : Type := mk {
  schools : JSONValue;
  loading : bool;
  filters : Filters.t;
  tempFilters : Filters.t;
  showSuggestions : Shown.t
}.

Definition initial : state :=
  mk (JArray []) true Filters.empty Filters.empty Shown.none.

(** [loadSchools]: a failure of the gateway is logged and the records
    stay as they were; [loading] is reset either way. *)
Definition loadSchools (storage : LocalStorage) (st : state) : state :=
  match getSchools storage with
  | Ok data => mk data false (filters st) (tempFilters st) (showSuggestions st)
  | Throw _ => mk (schools st) false (filters st) (tempFilters st) (showSuggestions st)
  end.

Definition handleTempFilterChange (field : FilterField) (value : string) (st : state)
  : state :=
  mk (schools st) (loading st) (filters st)
    (Filters.set field value (tempFilters st))
    (Shown.set field (0 <? String.length value)%nat (showSuggestions st)).

Definition selectSuggestion (field : FilterField) (value : string) (st : state)
  : state :=
  mk (schools st) (loading st) (filters st)
    (Filters.set field value (tempFilters st))
    (Shown.set field false (showSuggestions st)).

Definition handleSearch (st : state) : state :=
  mk (schools st) (loading st) (tempFilters st) (tempFilters st) (showSuggestions st).

Definition clearFilters (st : state) : state :=
  mk (schools st) (loading st) Filters.empty Filters.empty Shown.none.

Definition handleKeyPress (key : string) (st : state) : state :=
  if String.eqb key "Enter" then handleSearch st else st.

(** [onFocus] of a filter input. *)
Definition onFocus (field : FilterField) (st : state) : state :=
  if truthy (Filters.get field (tempFilters st))
  then mk (schools st) (loading st) (filters st) (tempFilters st)
         (Shown.set field true (showSuggestions st))
  else st.

(** The timer that [onBlur] starts, when it fires. *)
Definition onBlur (field : FilterField) (st : state) : state :=
  mk (schools st) (loading st) (filters st) (tempFilters st)
    (Shown.set field false (showSuggestions st)).

Definition hasActiveFilters (st : state) : bool :=
  truthy (Filters.name (filters st)) || truthy (Filters.city (filters st))
  || truthy (Filters.state (filters st)).

(** [schools.map] and [schools.filter] exist on arrays only. *)
Definition records (v : JSONValue) : Result (list School.t) :=
  match v with
  | JArray l => Ok l
  | JOther => Throw TypeError
  end.

(** The suggestion list of a field is on screen:
    [showSuggestions[field] && getSuggestions(field).length > 0]. *)
Definition dropdown (l : list School.t) (st : state) (field : FilterField) : bool :=
  Shown.get field (showSuggestions st)
  && (0 <? length (getSuggestions l (tempFilters st) field))%nat.

(** The render: the memoised values are computed first, then the
    spinner, an empty state or the grid is chosen. *)
Definition render (st : state) : Result View :=
  match records (schools st) with
  | Throw e => Throw e
  | Ok l =>
      let filtered := filteredSchools l (filters st) in
      if loading st then Ok Spinner
      else if Nat.eqb (length filtered) 0 then
        if hasActiveFilters st then Ok NoSchoolsFound else Ok NoSchoolsAddedYet
      else Ok (Grid filtered)
  end.

(** The events of the search panel and the handlers they are wired to. *)
Inductive event : Type :=
| Typed (field : FilterField) (value : string)
| Picked (field : FilterField) (value : string)
| Focused (field : FilterField)
| Blurred (field : FilterField)
| KeyPressed (key : string)
| SearchClicked
| ClearClicked.

Definition dispatch (st : state) (ev : event) : state :=
  match ev with
  | Typed field value => handleTempFilterChange field value st
  | Picked field value => selectSuggestion field value st
  | Focused field => onFocus field st
  | Blurred field => onBlur field st
  | KeyPressed key => handleKeyPress key st
  | SearchClicked => handleSearch st
  | ClearClicked => clearFilters st
  end.

(** The events that promote or reset the committed filter. *)
Definition commits (ev : event) : bool :=
  match ev with
  | KeyPressed key => String.eqb key "Enter"
  | SearchClicked | ClearClicked => true
  | _ => false
  end.
End ShowSchools.

(** ** Properties as the specification words them *)

(** [text] contains [sub] as a case-insensitive substring. *)
Definition ci_substring (sub text : string) : bool :=
  includes (toLowerCase text) (toLowerCase sub).

(** [text] has [pre] as a case-insensitive prefix. *)
Definition ci_prefix (pre text : string) : bool :=
  startsWith (toLowerCase text) (toLowerCase pre).

(** A filter field constrains a record when it is not the empty string. *)
Definition constraint_nonempty (f : Filters.t) (s : School.t) (field : FilterField)
  : bool :=
  String.eqb (Filters.get field f) "" || ci_substring (Filters.get field f) (schoolField field s).

Definition matching_nonempty (f : Filters.t) (s : School.t) : bool :=
  constraint_nonempty f s FName && constraint_nonempty f s FCity
  && constraint_nonempty f s FState.

(** A filter field constrains a record when it does not trim to the
    empty string. *)
Definition constraint_nonblank (f : Filters.t) (s : School.t) (field : FilterField)
  : bool :=
  String.eqb (trim (Filters.get field f)) "" || ci_substring (Filters.get field f) (schoolField field s).

Definition matching_nonblank (f : Filters.t) (s : School.t) : bool :=
  constraint_nonblank f s FName && constraint_nonblank f s FCity
  && constraint_nonblank f s FState.

(** The text consists only of whitespace (the empty text included). *)
Definition blank (s : string) : bool :=
  forallb isWhiteSpace (list_ascii_of_string s).

(** Position of the first occurrence of [v] in [l] ([length l] if none). *)
Fixpoint first_seen (v : string) (l : list string) : nat :=
  match l with
  | [] => 0
  | x :: r => if String.eqb x v then 0 else S (first_seen v r)
  end.

(** The language of a pattern. *)
Inductive Matches : Regex -> list ascii -> Prop :=
| MEps : Matches Eps []
| MClass p c : p c = true -> Matches (Class p) [c]
| MSeq r1 r2 w1 w2 :
    Matches r1 w1 -> Matches r2 w2 -> Matches (Seq r1 r2) (w1 ++ w2)
| MAltL r1 r2 w : Matches r1 w -> Matches (Alt r1 r2) w
| MAltR r1 r2 w : Matches r2 w -> Matches (Alt r1 r2) w
| MStarNil r : Matches (Star r) []
| MStarApp r w1 w2 :
    Matches r w1 -> Matches (Star r) w2 -> Matches (Star r) (w1 ++ w2).

(** Exactly ten decimal digits. *)
Definition ten_digits (s : string) : bool :=
  Nat.eqb (String.length s) 10 && forallb isDigit (list_ascii_of_string s).

(** The shape [local@domain.tld]: a local part, ["@"], a domain label,
    ["."] and a rest, the three parts non-empty and free of whitespace
    and of ["@"]. *)
Definition local_at_domain_tld (s : string) : Prop :=
  exists l d t : list ascii,
    list_ascii_of_string s = l ++ "@"%char :: d ++ "."%char :: t
    /\ l <> [] /\ d <> [] /\ t <> []
    /\ forallb notSpaceNorAt (l ++ d ++ t) = true.

(** A single ["@"] with non-empty parts on both sides and a ["."] after
    the ["@"]. *)
Definition single_at_then_dot (s : string) : Prop :=
  exists l d : list ascii,
    list_ascii_of_string s = l ++ "@"%char :: d
    /\ l <> [] /\ d <> []
    /\ ~ In "@"%char l /\ ~ In "@"%char d
    /\ In "."%char d.

(** The four text fields that are only required. *)
Inductive RequiredField : Type := RName | RAddress | RCity | RState.

Definition requiredKey (field : RequiredField) : string :=
  match field with
  | RName => "name"
  | RAddress => "address"
  | RCity => "city"
  | RState => "state"
  end.

Definition requiredValue (field : RequiredField) (d : SchoolBase.t) : string :=
  match field with
  | RName => SchoolBase.name d
  | RAddress => SchoolBase.address d
  | RCity => SchoolBase.city d
  | RState => SchoolBase.state d
  end.

Definition requiredMessage (field : RequiredField) : string :=
  match field with
  | RName => MSG_NAME_REQUIRED
  | RAddress => MSG_ADDRESS_REQUIRED
  | RCity => MSG_CITY_REQUIRED
  | RState => MSG_STATE_REQUIRED
  end.

(** The ids of the stored records are 1, 2, ..., in storage order. *)
Definition ids_sequential (l : list School.t) : Prop :=
  List.map School.id l = List.map Z.of_nat (seq 1 (length l)).

(** * Proofs *)

(** ** Lists *)

Section Filter.
Context {A : Type}.
Implicit Types (p q : A -> bool) (l : list A).

Lemma filter_twice p q l :
  List.filter q (List.filter p l) = List.filter (fun x => p x && q x) l.
Proof.
  induction l as [|x l IH]; simpl; [reflexivity|].
  destruct (p x); simpl; [destruct (q x)|]; rewrite IH; reflexivity.
Qed.

Lemma filter_all p l : (forall x, p x = true) -> List.filter p l = l.
Proof.
  intros Hp. induction l as [|x l IH]; simpl; [reflexivity|].
  rewrite Hp, IH. reflexivity.
Qed.

Lemma filter_sublist p l : sublist (List.filter p l) l.
Proof.
  induction l as [|x l IH]; simpl; [constructor|].
  destruct (p x); [apply sublist_skip | apply sublist_cons]; exact IH.
Qed.

Lemma filter_length_mono p q l :
  (forall x, p x = true -> q x = true) ->
  length (List.filter p l) <= length (List.filter q l).
Proof.
  intros Hpq. induction l as [|x l IH]; simpl; [lia|].
  destruct (p x) eqn:Hp.
  - rewrite (Hpq x Hp). simpl. lia.
  - destruct (q x); simpl; lia.
Qed.
End Filter.

(** ** Matching *)

(** The three conditional passes of [filteredSchools] are one pass with
    the conjunction of the three constraints. *)
Lemma filteredSchools_one_pass schools f :
  filteredSchools schools f = List.filter (matching_nonblank f) schools.
Proof.
  unfold filteredSchools, matching_nonblank, constraint_nonblank, ci_substring, truthy.
  destruct f as [n c st]; simpl.
  destruct (String.eqb (trim n) ""), (String.eqb (trim c) ""), (String.eqb (trim st) "");
    simpl; rewrite ?filter_twice;
    try (apply List.filter_ext; intros s; simpl;
         rewrite ?andb_true_r, ?andb_assoc; reflexivity).
  symmetry. apply filter_all. reflexivity.
Qed.

(** C1, as amended.  [filteredSchools] returns, in the input order, exactly
    the records that satisfy every constraint at once, where a field
    constrains a record when its filter text does not trim to the empty
    string, and the constraint is that the record's field contains the
    (untrimmed) filter text as a case-insensitive substring. *)
Theorem filteredSchools_matching (schools : list School.t) (f : Filters.t) :
  filteredSchools schools f = List.filter (matching_nonblank f) schools
  /\ sublist (filteredSchools schools f) schools
  /\ (forall s, In s (filteredSchools schools f) <->
                In s schools /\ matching_nonblank f s = true).
Proof.
  rewrite filteredSchools_one_pass. split; [reflexivity|split].
  - apply filter_sublist.
  - intros s. apply List.filter_In.
Qed.

(** C1, as stated, fails.  The name filter of one space is not the empty
    string and "Oakridge" contains no space, so the claim keeps no
    record; [filteredSchools] skips the filter, which trims to the empty
    string, and keeps the record. *)
Lemma filteredSchools_nonempty_counterexample :
  let f := Filters.mk " " "" "" in
  let s := School.mk 1 "Oakridge" "2 Elm St" "Dallas" "TX" "2145550100"
             "office@oakridge.edu" None "2024-01-02T00:00:00.000Z" in
  Filters.name f <> ""
  /\ ci_substring (Filters.name f) (School.name s) = false
  /\ filteredSchools [s] f = [s]
  /\ List.filter (matching_nonempty f) [s] = [].
Proof. repeat split; discriminate. Qed.

(** C6.  With the three filters empty the result is the input sequence. *)
Theorem filteredSchools_identity (schools : list School.t) :
  filteredSchools schools (Filters.mk "" "" "") = schools.
Proof. reflexivity. Qed.

Lemma matching_nonblank_set f field v s :
  Filters.get field f = "" ->
  matching_nonblank (Filters.set field v f) s = true ->
  matching_nonblank f s = true.
Proof.
  unfold matching_nonblank, constraint_nonblank.
  destruct f as [n c st], field; simpl; intros ->; simpl;
    rewrite !andb_true_iff; tauto.
Qed.

(** C5.  Replacing the empty value of one filter field by a non-empty
    text never increases the number of records returned. *)
Theorem filteredSchools_monotonic
    (schools : list School.t) (f : Filters.t) (field : FilterField) (v : string) :
  Filters.get field f = "" ->
  v <> "" ->
  length (filteredSchools schools (Filters.set field v f))
  <= length (filteredSchools schools f).
Proof.
  intros Hempty _. rewrite !filteredSchools_one_pass.
  apply filter_length_mono. intros s. apply matching_nonblank_set, Hempty.
Qed.

Lemma filteredSchools_monotonic_witness :
  Filters.get FCity (Filters.mk "oak" "" "") = ""
  /\ "austin" <> ""
  /\ length (filteredSchools [oakHill; oakridge]
               (Filters.set FCity "austin" (Filters.mk "oak" "" "")))
     <= length (filteredSchools [oakHill; oakridge] (Filters.mk "oak" "" "")).
Proof.
  split; [reflexivity|]. split; [discriminate|].
  apply (filteredSchools_monotonic [oakHill; oakridge] (Filters.mk "oak" "" "")
           FCity "austin"); [reflexivity | discriminate].
Defined.


(** ** Whitespace-only filters *)

Lemma trimEnd_blank s : trimEnd s = "" <-> blank s = true.
Proof.
  unfold blank. induction s as [|c r IH]; simpl; [tauto|].
  rewrite andb_true_iff.
  destruct (trimEnd r) as [|c' r'].
  - destruct (isWhiteSpace c); [tauto|].
    split; [discriminate | intros [? _]; discriminate].
  - split; [discriminate|]. intros [_ Hr]. apply IH in Hr. discriminate.
Qed.

Lemma trimStart_blank s : blank (trimStart s) = blank s.
Proof.
  unfold blank. induction s as [|c r IH]; simpl; [reflexivity|].
  destruct (isWhiteSpace c) eqn:Hc; simpl; [exact IH|].
  rewrite Hc. reflexivity.
Qed.

Lemma trim_blank s : trim s = "" <-> blank s = true.
Proof. unfold trim. rewrite trimEnd_blank, trimStart_blank. tauto. Qed.

Lemma matching_nonblank_blank f field s :
  trim (Filters.get field f) = "" ->
  matching_nonblank f s = matching_nonblank (Filters.set field "" f) s.
Proof.
  unfold matching_nonblank, constraint_nonblank.
  destruct f as [n c st], field; simpl; intros ->; reflexivity.
Qed.

Lemma matching_nonblank_split f field s :
  trim (Filters.get field f) <> "" ->
  matching_nonblank f s
  = matching_nonblank (Filters.set field "" f) s
    && includes (toLowerCase (schoolField field s)) (toLowerCase (Filters.get field f)).
Proof.
  unfold matching_nonblank, constraint_nonblank, ci_substring.
  destruct f as [n c st], field; simpl; intros Hne;
    apply String.eqb_neq in Hne; rewrite Hne; simpl;
    repeat match goal with
      | |- context [includes ?a ?b] => generalize (includes a b); intro
      | |- context [String.eqb ?a ?b] => generalize (String.eqb a b); intro
      end;
    repeat match goal with b : bool |- _ => destruct b end; reflexivity.
Qed.

(** C10.  A filter text consists only of whitespace exactly when it trims
    to the empty string, and such a text constrains nothing: the result
    is the one for the empty text.  A filter text that does not trim to
    the empty string is tested untrimmed: the result keeps, of the
    records that pass the other fields, those whose field contains the
    lower-cased filter text as it was typed; and the surrounding
    whitespace matters, since "hill " and its trimmed form "hill"
    select different records. *)
Theorem filteredSchools_whitespace :
  (forall v, trim v = "" <-> blank v = true)
  /\ (forall schools f field,
        trim (Filters.get field f) = "" ->
        filteredSchools schools f = filteredSchools schools (Filters.set field "" f))
  /\ (forall schools f field,
        trim (Filters.get field f) <> "" ->
        filteredSchools schools f
        = List.filter
            (fun s => includes (toLowerCase (schoolField field s))
                        (toLowerCase (Filters.get field f)))
            (filteredSchools schools (Filters.set field "" f)))
  /\ (filteredSchools [oakHill; oakridge] (Filters.mk "hill " "" "") = []
      /\ filteredSchools [oakHill; oakridge] (Filters.mk (trim "hill ") "" "") = [oakHill]).
Proof.
  split; [exact trim_blank|]. split; [|split].
  - intros schools f field Hb. rewrite !filteredSchools_one_pass.
    apply List.filter_ext. intros s. apply matching_nonblank_blank, Hb.
  - intros schools f field Hne. rewrite !filteredSchools_one_pass, filter_twice.
    apply List.filter_ext. intros s. apply matching_nonblank_split, Hne.
  - split; reflexivity.
Qed.

(** ** Suggestions *)

Lemma Set_has_In x s : Set_has x s = true <-> In x s.
Proof.
  unfold Set_has. rewrite existsb_exists. split.
  - intros (y & Hy & Heq). apply String.eqb_eq in Heq. subst. exact Hy.
  - intros Hx. exists x. split; [exact Hx | apply String.eqb_refl].
Qed.

Lemma Set_from_snoc xs x : Set_from (xs ++ [x]) = Set_add (Set_from xs) x.
Proof. unfold Set_from. rewrite fold_left_app. reflexivity. Qed.

Lemma Set_from_In xs v : In v (Set_from xs) <-> In v xs.
Proof.
  induction xs as [|x xs IH] using rev_ind; [reflexivity|].
  rewrite Set_from_snoc. unfold Set_add.
  destruct (Set_has x (Set_from xs)) eqn:Hx.
  - apply Set_has_In in Hx. rewrite in_app_iff, IH. simpl.
    split; [tauto|]. intros [H|[<-|[]]]; [exact H | apply IH, Hx].
  - rewrite !in_app_iff, IH. reflexivity.
Qed.

Lemma Set_from_NoDup xs : NoDup (Set_from xs).
Proof.
  induction xs as [|x xs IH] using rev_ind; [constructor|].
  rewrite Set_from_snoc. unfold Set_add.
  destruct (Set_has x (Set_from xs)) eqn:Hx; [exact IH|].
  apply NoDup_app. split; [exact IH|]. split; [|apply NoDup_singleton].
  intros y Hy Hy'. apply list_elem_of_In in Hy, Hy'. destruct Hy' as [<-|[]].
  apply Set_has_In in Hy. congruence.
Qed.

Lemma first_seen_lt v l : In v l -> first_seen v l < length l.
Proof.
  induction l as [|x l IH]; simpl; [tauto|].
  destruct (String.eqb_spec x v) as [_|Hne]; [lia|].
  intros [?|Hv]; [contradiction|]. apply IH in Hv. lia.
Qed.

Lemma first_seen_app_In v l l' : In v l -> first_seen v (l ++ l') = first_seen v l.
Proof.
  induction l as [|x l IH]; simpl; [tauto|].
  destruct (String.eqb_spec x v) as [_|Hne]; [reflexivity|].
  intros [?|Hv]; [contradiction|]. rewrite IH by exact Hv. reflexivity.
Qed.

Lemma first_seen_snoc_new v l : ~ In v l -> first_seen v (l ++ [v]) = length l.
Proof.
  induction l as [|x l IH]; simpl; intros Hv.
  - rewrite String.eqb_refl. reflexivity.
  - destruct (String.eqb_spec x v) as [->|Hne]; [tauto|].
    rewrite IH by tauto. reflexivity.
Qed.

Lemma StronglySorted_sublist {A} (R : relation A) k l :
  sublist k l -> StronglySorted R l -> StronglySorted R k.
Proof.
  induction 1 as [|x k l Hkl IH|x k l Hkl IH]; intros HS.
  - constructor.
  - apply StronglySorted_inv in HS as [HS Hx]. constructor; [apply IH, HS|].
    rewrite Forall_forall in Hx |- *. intros y Hy. apply Hx.
    eapply elem_of_sublist; [exact Hy | exact Hkl].
  - apply StronglySorted_inv in HS as [HS _]. apply IH, HS.
Qed.

(** The distinct values are listed by increasing position of their first
    occurrence. *)
Lemma Set_from_first_seen xs :
  StronglySorted lt (List.map (fun v => first_seen v xs) (Set_from xs)).
Proof.
  induction xs as [|x xs IH] using rev_ind; [constructor|].
  rewrite Set_from_snoc. unfold Set_add.
  assert (Hold : List.map (fun v => first_seen v (xs ++ [x])) (Set_from xs)
                 = List.map (fun v => first_seen v xs) (Set_from xs)).
  { apply List.map_ext_in. intros v Hv. apply first_seen_app_In, Set_from_In, Hv. }
  destruct (Set_has x (Set_from xs)) eqn:Hx; [rewrite Hold; exact IH|].
  rewrite List.map_app, Hold. simpl.
  apply StronglySorted_app_2; [|exact IH|repeat constructor].
  intros a b Ha Hb. apply list_elem_of_In in Ha, Hb. destruct Hb as [<-|[]].
  apply in_map_iff in Ha as (v & <- & Hv). rewrite Set_from_In in Hv.
  rewrite first_seen_snoc_new; [apply first_seen_lt, Hv|].
  intros Hin. rewrite <- Set_from_In, <- Set_has_In in Hin. congruence.
Qed.

(** C2.  [getSuggestions] returns at most five values, pairwise distinct,
    each a value of the field in some record and each having the draft
    text as a case-insensitive prefix, listed by the position at which
    they first occur in the record sequence; the list is empty when the
    draft text is the empty string. *)
Theorem getSuggestions_spec
    (schools : list School.t) (tempFilters : Filters.t) (field : FilterField) :
  let values := List.map (schoolField field) schools in
  let draft := Filters.get field tempFilters in
  let r := getSuggestions schools tempFilters field in
  length r <= 5
  /\ NoDup r
  /\ (forall v, In v r -> In v values /\ ci_prefix draft v = true)
  /\ StronglySorted lt (List.map (fun v => first_seen v values) r)
  /\ (draft = "" -> r = []).
Proof.
  intros values draft r. subst r. unfold getSuggestions. fold draft.
  assert (Hempty : draft = "" ->
            (if negb (truthy (toLowerCase draft)) then []
             else firstn 5 (List.filter
                    (fun item => startsWith (toLowerCase item) (toLowerCase draft))
                    (uniqueValues schools field))) = [])
    by (intros ->; reflexivity).
  destruct (negb (truthy (toLowerCase draft))).
  { repeat split; simpl; try constructor; try lia; try contradiction. }
  unfold uniqueValues. fold values.
  set (p := fun item => startsWith (toLowerCase item) (toLowerCase draft)).
  assert (Hsub : sublist (firstn 5 (List.filter p (Set_from values))) (Set_from values)).
  { etransitivity; [apply sublist_take | apply filter_sublist]. }
  split; [rewrite length_take; lia|].
  split; [eapply sublist_NoDup; [apply Set_from_NoDup | exact Hsub]|].
  split; [|split; [|exact Hempty]].
  - intros v Hv. split.
    + apply Set_from_In. apply list_elem_of_In. eapply elem_of_sublist; [|exact Hsub].
      apply list_elem_of_In, Hv.
    + assert (Hf : In v (List.filter p (Set_from values))).
      { apply list_elem_of_In. eapply elem_of_sublist; [|apply sublist_take].
        apply list_elem_of_In, Hv. }
      apply List.filter_In in Hf as [_ Hp]. exact Hp.
  - eapply StronglySorted_sublist; [|apply Set_from_first_seen].
    apply (fmap_sublist _ _ _ Hsub).
Qed.

(** ** Regular expressions: the matcher decides the language *)

Lemma nullable_Matches r : nullable r = true <-> Matches r [].
Proof.
  induction r as [| |p|r1 IH1 r2 IH2|r1 IH1 r2 IH2|r IH]; simpl.
  - split; [discriminate | inversion 1].
  - split; [constructor | reflexivity].
  - split; [discriminate | inversion 1].
  - rewrite andb_true_iff, IH1, IH2. split.
    + intros [H1 H2]. apply (MSeq _ _ [] [] H1 H2).
    + inversion 1 as [| |? ? w1 w2 H1 H2 Heq Hw| | | |]; subst.
      apply app_eq_nil in Hw as [-> ->]. tauto.
  - rewrite orb_true_iff, IH1, IH2. split.
    + intros [H|H]; [apply MAltL | apply MAltR]; exact H.
    + inversion 1; subst; tauto.
  - split; [constructor | reflexivity].
Qed.

Lemma Matches_Star_cons r c w :
  Matches (Star r) (c :: w) ->
  exists w1 w2, w = w1 ++ w2 /\ Matches r (c :: w1) /\ Matches (Star r) w2.
Proof.
  intros H. remember (Star r) as r' eqn:Hr. remember (c :: w) as cw eqn:Hw.
  revert w Hw.
  induction H as [| | | | | |r0 w1 w2 H1 _ H2 IH2]; intros v Hv; try discriminate.
  injection Hr as ->. destruct w1 as [|c1 w1]; simpl in Hv.
  - apply IH2; [reflexivity | exact Hv].
  - injection Hv as -> <-. exists w1, w2. auto.
Qed.

Lemma deriv_Matches r c w : Matches (deriv c r) w <-> Matches r (c :: w).
Proof.
  revert w. induction r as [| |p|r1 IH1 r2 IH2|r1 IH1 r2 IH2|r IH]; intros w; simpl.
  - split; inversion 1.
  - split; inversion 1.
  - destruct (p c) eqn:Hp; split; inversion 1; subst.
    + constructor. exact Hp.
    + constructor.
    + congruence.
  - assert (Hleft : Matches (Seq (deriv c r1) r2) w ->
                    Matches (Seq r1 r2) (c :: w)).
    { inversion 1 as [| |? ? w1 w2 H1 H2| | | |]; subst.
      apply IH1 in H1. apply (MSeq _ _ (c :: w1) w2 H1 H2). }
    assert (Hinv : Matches (Seq r1 r2) (c :: w) ->
                   Matches (Seq (deriv c r1) r2) w
                   \/ (Matches r1 [] /\ Matches (deriv c r2) w)).
    { inversion 1 as [| |? ? w1 w2 H1 H2 Heq Hw| | | |]; subst.
      destruct w1 as [|c1 w1]; simpl in Hw.
      - subst w2. right. split; [exact H1 | apply IH2, H2].
      - injection Hw as -> <-. left. constructor; [apply IH1, H1 | exact H2]. }
    destruct (nullable r1) eqn:Hn.
    + split.
      * inversion 1; subst; [auto|].
        apply (MSeq _ _ [] (c :: w)); [apply nullable_Matches, Hn | apply IH2; assumption].
      * intros H. apply Hinv in H as [H|[_ H]]; [apply MAltL | apply MAltR]; exact H.
    + split; [exact Hleft|].
      intros H. apply Hinv in H as [H|[H _]]; [exact H|].
      apply nullable_Matches in H. congruence.
  - split.
    + inversion 1; subst; [apply MAltL, IH1 | apply MAltR, IH2]; assumption.
    + inversion 1; subst; [apply MAltL, IH1 | apply MAltR, IH2]; assumption.
  - split.
    + inversion 1 as [| |? ? w1 w2 H1 H2| | | |]; subst.
      apply IH in H1. apply (MStarApp _ (c :: w1) w2 H1 H2).
    + intros H. apply Matches_Star_cons in H as (w1 & w2 & -> & H1 & H2).
      constructor; [apply IH, H1 | exact H2].
Qed.

Lemma matches_Matches r w : matches r w = true <-> Matches r w.
Proof.
  revert r. induction w as [|c w IH]; intros r; simpl.
  - apply nullable_Matches.
  - rewrite IH. apply deriv_Matches.
Qed.

(** ** The two patterns *)

Lemma Matches_Class p w : Matches (Class p) w <-> exists c, w = [c] /\ p c = true.
Proof.
  split.
  - inversion 1; subst. eauto.
  - intros (c & -> & Hc). constructor. exact Hc.
Qed.

Lemma Matches_Seq r1 r2 w :
  Matches (Seq r1 r2) w <->
  exists w1 w2, w = w1 ++ w2 /\ Matches r1 w1 /\ Matches r2 w2.
Proof.
  split.
  - inversion 1; subst. eauto.
  - intros (w1 & w2 & -> & H1 & H2). constructor; assumption.
Qed.

Lemma Matches_Star_Class p w :
  Matches (Star (Class p)) w <-> forallb p w = true.
Proof.
  split.
  - intros H. remember (Star (Class p)) as r eqn:Hr.
    induction H as [| | | | | |r0 w1 w2 H1 _ H2 IH2]; try discriminate; [reflexivity|].
    injection Hr as ->. apply Matches_Class in H1 as (c & -> & Hc).
    simpl. rewrite Hc. apply IH2. reflexivity.
  - induction w as [|c w IH]; simpl; [constructor|].
    rewrite andb_true_iff. intros [Hc Hw].
    apply (MStarApp _ [c] w); [constructor; exact Hc | apply IH, Hw].
Qed.

Lemma Matches_Plus_Class p w :
  Matches (Plus (Class p)) w <-> w <> [] /\ forallb p w = true.
Proof.
  unfold Plus. rewrite Matches_Seq. split.
  - intros (w1 & w2 & -> & H1 & H2).
    apply Matches_Class in H1 as (c & -> & Hc). apply Matches_Star_Class in H2.
    simpl. rewrite Hc, H2. split; [discriminate | reflexivity].
  - intros [Hne Hw]. destruct w as [|c w]; [contradiction|].
    simpl in Hw. apply andb_true_iff in Hw as [Hc Hw].
    exists [c], w. split; [reflexivity|].
    split; [constructor; exact Hc | apply Matches_Star_Class, Hw].
Qed.

Lemma Matches_Repeat_Class p n w :
  Matches (Repeat n (Class p)) w <-> length w = n /\ forallb p w = true.
Proof.
  revert w. induction n as [|n IH]; intros w; simpl.
  - split.
    + inversion 1. split; reflexivity.
    + intros [Hl _]. destruct w; [constructor | discriminate].
  - rewrite Matches_Seq. split.
    + intros (w1 & w2 & -> & H1 & H2).
      apply Matches_Class in H1 as (c & -> & Hc). apply IH in H2 as [Hl Hw].
      simpl. rewrite Hc, Hl, Hw. split; reflexivity.
    + intros [Hl Hw]. destruct w as [|c w]; [discriminate|].
      simpl in Hl, Hw. apply andb_true_iff in Hw as [Hc Hw].
      exists [c], w. split; [reflexivity|].
      split; [constructor; exact Hc | apply IH; split; [lia | exact Hw]].
Qed.

Lemma length_list_ascii_of_string s :
  length (list_ascii_of_string s) = String.length s.
Proof. induction s as [|c s IH]; simpl; [reflexivity | rewrite IH; reflexivity]. Qed.

(** [/^\d{10}$/] accepts exactly the texts of ten decimal digits. *)
Lemma test_CONTACT_RE s : test CONTACT_RE s = ten_digits s.
Proof.
  apply eq_true_iff_eq. unfold test, CONTACT_RE, ten_digits.
  rewrite matches_Matches, Matches_Repeat_Class, andb_true_iff, Nat.eqb_eq,
    length_list_ascii_of_string.
  reflexivity.
Qed.

(** [/^[^\s@]+@[^\s@]+\.[^\s@]+$/] accepts exactly the shape
    [local@domain.tld]. *)
Lemma test_EMAIL_RE s : test EMAIL_RE s = true <-> local_at_domain_tld s.
Proof.
  unfold test, EMAIL_RE, local_at_domain_tld, Lit.
  rewrite matches_Matches. split.
  - intros H.
    apply Matches_Seq in H as (l & w1 & -> & Hl & H).
    apply Matches_Seq in H as (a & w2 & -> & Ha & H).
    apply Matches_Seq in H as (d & w3 & -> & Hd & H).
    apply Matches_Seq in H as (o & t & -> & Ho & Ht).
    apply Matches_Class in Ha as (ca & -> & Hca). apply Ascii.eqb_eq in Hca as <-.
    apply Matches_Class in Ho as (co & -> & Hco). apply Ascii.eqb_eq in Hco as <-.
    apply Matches_Plus_Class in Hl as [Hl Hl'], Hd as [Hd Hd'], Ht as [Ht Ht'].
    exists l, d, t. rewrite !forallb_app, Hl', Hd', Ht'. auto.
  - intros (l & d & t & -> & Hl & Hd & Ht & Hall).
    rewrite !forallb_app, !andb_true_iff in Hall. destruct Hall as (Hl' & Hd' & Ht').
    apply (MSeq _ _ l); [apply Matches_Plus_Class; auto|].
    apply (MSeq _ _ ["@"%char]); [constructor; reflexivity|].
    apply (MSeq _ _ d); [apply Matches_Plus_Class; auto|].
    apply (MSeq _ _ ["."%char]); [constructor; reflexivity|].
    apply Matches_Plus_Class; auto.
Qed.

(** ** Validation *)

Lemma truthy_trim s : truthy (trim s) = negb (blank s).
Proof.
  unfold truthy. destruct (String.eqb_spec (trim s) "") as [He|Hne]; simpl.
  - apply trim_blank in He. rewrite He. reflexivity.
  - destruct (blank s) eqn:Hb; [|reflexivity].
    apply trim_blank in Hb. contradiction.
Qed.

Lemma lookup_cond_insert_ne (b : bool) (k k' v : string) (m : FormErrors) :
  k <> k' -> (if b then <[k := v]> m else m) !! k' = m !! k'.
Proof. intros Hne. destruct b; [apply lookup_insert_ne, Hne | reflexivity]. Qed.

Lemma lookup_cond2_insert_ne (b1 b2 : bool) (k k' v1 v2 : string) (m : FormErrors) :
  k <> k' ->
  (if b1 then <[k := v1]> m else if b2 then <[k := v2]> m else m) !! k' = m !! k'.
Proof.
  intros Hne. destruct b1; [apply lookup_insert_ne, Hne|].
  apply lookup_cond_insert_ne, Hne.
Qed.

Lemma newErrors_contact d :
  newErrors d !! "contact"
  = if blank (SchoolBase.contact d) then Some MSG_CONTACT_REQUIRED
    else if ten_digits (SchoolBase.contact d) then None
    else Some MSG_CONTACT_FORMAT.
Proof.
  unfold newErrors. cbv zeta.
  rewrite (lookup_cond_insert_ne _ _ "contact") by discriminate.
  rewrite (lookup_cond2_insert_ne _ _ _ "contact") by discriminate.
  rewrite (truthy_trim (SchoolBase.contact d)), negb_involutive, test_CONTACT_RE.
  destruct (blank (SchoolBase.contact d)); [apply lookup_insert_eq|].
  destruct (ten_digits (SchoolBase.contact d)); simpl.
  - rewrite !lookup_cond_insert_ne by discriminate. apply lookup_empty.
  - apply lookup_insert_eq.
Qed.

Lemma newErrors_email_id d :
  newErrors d !! "email_id"
  = if blank (SchoolBase.email_id d) then Some MSG_EMAIL_REQUIRED
    else if test EMAIL_RE (SchoolBase.email_id d) then None
    else Some MSG_EMAIL_FORMAT.
Proof.
  unfold newErrors. cbv zeta.
  rewrite (lookup_cond_insert_ne _ _ "email_id") by discriminate.
  rewrite (truthy_trim (SchoolBase.email_id d)), negb_involutive.
  destruct (blank (SchoolBase.email_id d)); [apply lookup_insert_eq|].
  destruct (test EMAIL_RE (SchoolBase.email_id d)); simpl.
  - rewrite (lookup_cond2_insert_ne _ _ _ "email_id") by discriminate.
    rewrite !lookup_cond_insert_ne by discriminate. apply lookup_empty.
  - apply lookup_insert_eq.
Qed.

Lemma whitespace_not_digit c : isWhiteSpace c = true -> isDigit c = false.
Proof. destruct c as [[] [] [] [] [] [] [] []]; vm_compute; congruence. Qed.

Lemma whitespace_is_not_notSpaceNorAt c :
  isWhiteSpace c = true -> notSpaceNorAt c = false.
Proof. unfold notSpaceNorAt. intros ->. reflexivity. Qed.

Lemma blank_not_ten_digits s : blank s = true -> ten_digits s = false.
Proof.
  unfold blank, ten_digits. destruct s as [|c s]; [reflexivity|]. simpl.
  rewrite andb_true_iff. intros [Hc _].
  rewrite (whitespace_not_digit c Hc). apply andb_false_r.
Qed.

Lemma blank_not_local_at_domain_tld s :
  blank s = true -> ~ local_at_domain_tld s.
Proof.
  unfold blank. intros Hb (l & d & t & Hs & Hl & _ & _ & Hall).
  rewrite Hs in Hb. destruct l as [|c l]; [contradiction|].
  simpl in Hb, Hall. apply andb_true_iff in Hb as [Hc _].
  rewrite (whitespace_is_not_notSpaceNorAt c Hc) in Hall. discriminate.
Qed.

(** C4, as amended.  [validateForm] reports an error for [contact] exactly
    when the value is not ten decimal digits; the error is Required when
    the value is empty or consists only of whitespace, and InvalidFormat
    otherwise. *)
Theorem validateForm_contact (st : FormState) :
  let contact := SchoolBase.contact (formData st) in
  let error := errors (fst (validateForm st)) !! "contact" in
  (error <> None <-> ten_digits contact = false)
  /\ (blank contact = true -> error = Some MSG_CONTACT_REQUIRED)
  /\ (blank contact = false -> ten_digits contact = false ->
      error = Some MSG_CONTACT_FORMAT).
Proof.
  simpl. rewrite newErrors_contact.
  destruct (blank (SchoolBase.contact (formData st))) eqn:Hb.
  - rewrite (blank_not_ten_digits _ Hb). repeat split; congruence.
  - destruct (ten_digits (SchoolBase.contact (formData st)));
      repeat split; congruence.
Qed.

(** C4, as stated, fails.  A contact of one space is not the empty string
    and is not ten digits; the error is Required, not InvalidFormat. *)
Lemma validateForm_contact_counterexample :
  let d := SchoolBase.mk "Oak Hill" "1 Main St" "Austin" "TX" " "
             "office@oakhill.edu" (Some "data:image/png;base64,iVBORw0KGgo=") in
  let st := mkFormState d ∅ false None in
  SchoolBase.contact d <> ""
  /\ ten_digits (SchoolBase.contact d) = false
  /\ errors (fst (validateForm st)) !! "contact" = Some MSG_CONTACT_REQUIRED
  /\ MSG_CONTACT_REQUIRED <> MSG_CONTACT_FORMAT.
Proof. repeat split; try discriminate. Qed.

(** C3, as amended.  [validateForm] reports an error for [email_id] exactly
    when the value is not of the shape [local@domain.tld] (three
    non-empty parts without whitespace or ["@"], joined by one ["@"] and
    a ["."]); the error is Required when the value is empty or consists
    only of whitespace, and InvalidFormat otherwise. *)
Theorem validateForm_email (st : FormState) :
  let email := SchoolBase.email_id (formData st) in
  let error := errors (fst (validateForm st)) !! "email_id" in
  (error <> None <-> ~ local_at_domain_tld email)
  /\ (blank email = true -> error = Some MSG_EMAIL_REQUIRED)
  /\ (blank email = false -> ~ local_at_domain_tld email ->
      error = Some MSG_EMAIL_FORMAT).
Proof.
  simpl. rewrite newErrors_email_id.
  destruct (blank (SchoolBase.email_id (formData st))) eqn:Hb.
  - apply blank_not_local_at_domain_tld in Hb.
    repeat split; try congruence; tauto.
  - destruct (test EMAIL_RE (SchoolBase.email_id (formData st))) eqn:Ht.
    + apply test_EMAIL_RE in Ht. repeat split; try congruence; tauto.
    + assert (Hn : ~ local_at_domain_tld (SchoolBase.email_id (formData st))).
      { intros H. apply test_EMAIL_RE in H. congruence. }
      repeat split; try congruence; tauto.
Qed.

(** C3, as stated, fails.  ["a@b."] has a single ["@"], non-empty parts
    on both sides of it and a ["."] after it, yet the pattern asks for a
    non-empty part after the ["."] and the value is rejected. *)
Lemma validateForm_email_counterexample :
  let d := SchoolBase.mk "Oak Hill" "1 Main St" "Austin" "TX" "5125550100"
             "a@b." (Some "data:image/png;base64,iVBORw0KGgo=") in
  let st := mkFormState d ∅ false None in
  single_at_then_dot (SchoolBase.email_id d)
  /\ errors (fst (validateForm st)) !! "email_id" = Some MSG_EMAIL_FORMAT.
Proof.
  split; [|reflexivity].
  exists ["a"%char], ["b"%char; "."%char]. simpl.
  split; [reflexivity|]. split; [discriminate|]. split; [discriminate|].
  split; [intros [H|[]]; discriminate|].
  split; [intros [H|[H|[]]]; discriminate|].
  right. left. reflexivity.
Qed.

(** Two more inputs on which the wording of C3 and the pattern part:
    whitespace inside the local part, and a whitespace-only value, whose
    error is Required although the value is not the empty string. *)
Example email_whitespace_examples :
  newErrors (SchoolBase.mk "" "" "" "" "" "a b@c.d" None) !! "email_id"
  = Some MSG_EMAIL_FORMAT
  /\ newErrors (SchoolBase.mk "" "" "" "" "" " " None) !! "email_id"
     = Some MSG_EMAIL_REQUIRED.
Proof. split; reflexivity. Qed.

Example validateForm_accepts :
  validateForm (mkFormState validCandidate ∅ false None)
  = (mkFormState validCandidate ∅ false None, true).
Proof. reflexivity. Qed.

(** ** Image gate *)

(** C8.  A selected file is refused with the TooLarge message exactly when
    its size exceeds 5,000,000 bytes.  A refused file changes neither the
    candidate record nor the preview; a file within the limit is read
    and becomes the record's image.  In particular a file of 6,000,000
    bytes is refused and an unset image stays unset. *)
Theorem handleImageChange_gate (st : FormState) (file : File) (rest : list File) :
  let st' := handleImageChange (Some (file :: rest)) st in
  (errors st' !! "image" = Some MSG_IMAGE_TOO_LARGE <-> (size_bytes file > 5000000)%Z)
  /\ ((size_bytes file > 5000000)%Z ->
      formData st' = formData st /\ imagePreview st' = imagePreview st)
  /\ ((size_bytes file <= 5000000)%Z ->
      SchoolBase.image (formData st') = readResult file)
  /\ (size_bytes file = 6000000%Z ->
      SchoolBase.image (formData st) = None ->
      errors st' !! "image" = Some MSG_IMAGE_TOO_LARGE
      /\ SchoolBase.image (formData st') = None).
Proof.
  simpl. destruct (Z.gtb_spec (size_bytes file) 5000000) as [Hgt|Hle]; simpl.
  - rewrite lookup_insert_eq. repeat split; auto; lia.
  - rewrite lookup_insert_eq. repeat split; try discriminate; try lia.
Qed.

Example handleImageChange_6MB :
  handleImageChange (Some [mkFile 6000000 (Some "data:image/png;base64,AAAA")])
    initialFormState
  = setErrors {[ "image" := MSG_IMAGE_TOO_LARGE ]} initialFormState.
Proof. reflexivity. Qed.

Example handleImageChange_no_file st :
  handleImageChange None st = st /\ handleImageChange (Some []) st = st.
Proof. split; reflexivity. Qed.

(** ** Persistence gateway *)

Lemma append_nonempty_r (a b : string) : b <> "" -> (a ++ b)%string <> "".
Proof. destruct a; simpl; [tauto | discriminate]. Qed.

Lemma toISOString_nonempty d : toISOString d <> "".
Proof. unfold toISOString. apply append_nonempty_r. discriminate. Qed.

(** C7.  When the stored records can be read and the storage accepts the
    write, [addSchool] returns a record whose id is the number of stored
    records plus one, whose creation timestamp is not empty and whose
    other fields are the candidate's, and stores it after the others; on
    a store of three records the id is 4. *)
Theorem addSchool_assigns
    (now : Date) (storage : LocalStorage) (schoolData : SchoolBase.t)
    (schools : list School.t) :
  parseSchools (item_schools storage) = Ok schools ->
  acceptsWrite storage = true ->
  exists (s : School.t) (storage' : LocalStorage),
    addSchool now storage schoolData = Ok (s, storage')
    /\ School.id s = (Z.of_nat (length schools) + 1)%Z
    /\ School.createdAt s <> ""
    /\ School.name s = SchoolBase.name schoolData
    /\ School.address s = SchoolBase.address schoolData
    /\ School.city s = SchoolBase.city schoolData
    /\ School.state s = SchoolBase.state schoolData
    /\ School.contact s = SchoolBase.contact schoolData
    /\ School.email_id s = SchoolBase.email_id schoolData
    /\ School.image s = SchoolBase.image schoolData
    /\ item_schools storage' = Records (schools ++ [s])
    /\ (length schools = 3 -> School.id s = 4%Z).
Proof.
  intros Hparse Hwrite. unfold addSchool. rewrite Hparse, Hwrite.
  eexists _, _. split; [reflexivity|]. simpl.
  repeat split; [apply toISOString_nonempty|]. intros ->. reflexivity.
Qed.

Lemma addSchool_assigns_witness :
  let storage := mkLocalStorage (Records [oakHill; oakridge; oakHill]) true in
  parseSchools (item_schools storage) = Ok [oakHill; oakridge; oakHill]
  /\ acceptsWrite storage = true
  /\ exists s storage',
       addSchool noon storage validCandidate = Ok (s, storage')
       /\ School.id s = 4%Z
       /\ School.createdAt s = "2024-03-09T12:00:00.000Z".
Proof.
  simpl. split; [reflexivity|]. split; [reflexivity|].
  destruct (addSchool_assigns noon
              (mkLocalStorage (Records [oakHill; oakridge; oakHill]) true)
              validCandidate [oakHill; oakridge; oakHill] eq_refl eq_refl)
    as (s & storage' & Hadd & Hid & _).
  exists s, storage'. split; [exact Hadd|]. split; [exact Hid|].
  injection Hadd as <- _. reflexivity.
Defined.

Example addSchool_first :
  addSchool noon (mkLocalStorage NoItem true) validCandidate
  = Ok (mkSchool 1 validCandidate "2024-03-09T12:00:00.000Z",
        mkLocalStorage
          (Records [mkSchool 1 validCandidate "2024-03-09T12:00:00.000Z"]) true).
Proof. reflexivity. Qed.

(** The gateway fails only in the storage layer: the stored text cannot
    be read as an array of records, or the write is refused. *)
Lemma addSchool_Throw now storage schoolData e :
  addSchool now storage schoolData = Throw e <->
  parseSchools (item_schools storage) = Throw e
  \/ (exists schools, parseSchools (item_schools storage) = Ok schools)
     /\ acceptsWrite storage = false /\ e = QuotaExceededError.
Proof.
  unfold addSchool.
  destruct (parseSchools (item_schools storage)) as [schools|e'].
  - destruct (acceptsWrite storage); split.
    + discriminate.
    + intros [H|(_ & H & _)]; discriminate.
    + intros [= <-]. right. eauto.
    + intros [H|(_ & _ & ->)]; [discriminate | reflexivity].
  - split; [intros [= ->]; left; reflexivity|].
    intros [[= ->]|([schools H] & _)]; [reflexivity | discriminate].
Qed.

(** ** Submission *)

(** C9.  When validation passes and the gateway's append fails, the
    submission leaves exactly one error, the SubmitFailed message under
    the key ["submit"], and no error under any field's key; the form's
    data is as it was, the form is no longer loading, [onSuccess] is not
    called and the storage is untouched. *)
Theorem handleSubmit_gateway_failure
    (now : Date) (storage : LocalStorage) (st : FormState) (e : Exception) :
  snd (validateForm st) = true ->
  addSchool now storage (formData st) = Throw e ->
  let out := handleSubmit now storage st in
  errors (form out) = {[ "submit" := MSG_SUBMIT_FAILED ]}
  /\ (forall k, k <> "submit" -> errors (form out) !! k = None)
  /\ formData (form out) = formData st
  /\ loading (form out) = false
  /\ onSuccess out = false
  /\ storage_after out = storage.
Proof.
  intros Hvalid Hthrow. unfold handleSubmit.
  destruct (validateForm st) as [st1 valid] eqn:Hv. simpl in Hvalid. subst valid.
  simpl. rewrite Hthrow. simpl.
  assert (Hst1 : formData st1 = formData st).
  { unfold validateForm in Hv. injection Hv as <- _. reflexivity. }
  repeat split; [|exact Hst1].
  intros k Hk. apply lookup_singleton_ne. congruence.
Qed.

Lemma handleSubmit_gateway_failure_witness :
  let storage := mkLocalStorage (Records [oakHill; oakridge]) false in
  let st := mkFormState validCandidate ∅ false None in
  snd (validateForm st) = true
  /\ addSchool noon storage (formData st) = Throw QuotaExceededError
  /\ errors (form (handleSubmit noon storage st)) = {[ "submit" := MSG_SUBMIT_FAILED ]}
  /\ formData (form (handleSubmit noon storage st)) = validCandidate.
Proof.
  simpl. split; [reflexivity|]. split; [reflexivity|].
  destruct (handleSubmit_gateway_failure noon
              (mkLocalStorage (Records [oakHill; oakridge]) false)
              (mkFormState validCandidate ∅ false None) QuotaExceededError
              eq_refl eq_refl)
    as (Herr & _ & Hdata & _).
  split; [exact Herr | exact Hdata].
Defined.

Example handleSubmit_success :
  let out := handleSubmit noon (mkLocalStorage NoItem true)
               (mkFormState validCandidate ∅ false None) in
  onSuccess out = true
  /\ item_schools (storage_after out)
     = Records [mkSchool 1 validCandidate "2024-03-09T12:00:00.000Z"].
Proof. split; reflexivity. Qed.

Example handleSubmit_invalid :
  let out := handleSubmit noon (mkLocalStorage NoItem true) initialFormState in
  onSuccess out = false
  /\ storage_after out = mkLocalStorage NoItem true
  /\ errors (form out) !! "name" = Some MSG_NAME_REQUIRED.
Proof. repeat split. Qed.

(** ** The specification's scenario *)

Example scenario_name :
  filteredSchools [oakHill; oakridge] (Filters.mk "oak" "" "") = [oakHill; oakridge].
Proof. reflexivity. Qed.

Example scenario_city :
  filteredSchools [oakHill; oakridge] (Filters.mk "" "austin" "") = [oakHill].
Proof. reflexivity. Qed.

Example scenario_suggestions :
  getSuggestions [oakHill; oakridge] (Filters.mk "oak" "" "") FName
  = ["Oak Hill"; "Oakridge"].
Proof. reflexivity. Qed.

Example suggestions_first_seen :
  uniqueValues [oakHill; oakridge; oakHill] FState = ["TX"]
  /\ uniqueValues [oakridge; oakHill; oakridge] FCity = ["Dallas"; "Austin"].
Proof. split; reflexivity. Qed.

(** * Further properties of the code *)

(** ** Validation: the other rules and the verdict *)

Ltac strip_other_keys key :=
  repeat first
    [ rewrite (lookup_cond_insert_ne _ _ key) by congruence
    | rewrite (lookup_cond2_insert_ne _ _ _ key) by congruence ].

Lemma lookup_cond_insert_eq (b : bool) (k v : string) (m : FormErrors) :
  m !! k = None ->
  (if b then <[k := v]> m else m) !! k = if b then Some v else None.
Proof. intros Hm. destruct b; [apply lookup_insert_eq | exact Hm]. Qed.

Lemma newErrors_required d field :
  newErrors d !! requiredKey field
  = if blank (requiredValue field d) then Some (requiredMessage field) else None.
Proof.
  unfold newErrors. cbv zeta.
  destruct field; simpl requiredKey; simpl requiredValue; simpl requiredMessage.
  - strip_other_keys "name".
    rewrite lookup_cond_insert_eq by apply lookup_empty.
    rewrite truthy_trim, negb_involutive. reflexivity.
  - strip_other_keys "address".
    rewrite lookup_cond_insert_eq
      by (strip_other_keys "address"; apply lookup_empty).
    rewrite (truthy_trim (SchoolBase.address d)), negb_involutive. reflexivity.
  - strip_other_keys "city".
    rewrite lookup_cond_insert_eq
      by (strip_other_keys "city"; apply lookup_empty).
    rewrite (truthy_trim (SchoolBase.city d)), negb_involutive. reflexivity.
  - strip_other_keys "state".
    rewrite lookup_cond_insert_eq
      by (strip_other_keys "state"; apply lookup_empty).
    rewrite (truthy_trim (SchoolBase.state d)), negb_involutive. reflexivity.
Qed.

Lemma newErrors_image d :
  newErrors d !! "image"
  = if truthyImage (SchoolBase.image d) then None else Some MSG_IMAGE_REQUIRED.
Proof.
  unfold newErrors. cbv zeta.
  rewrite lookup_cond_insert_eq
    by (strip_other_keys "image"; apply lookup_empty).
  destruct (truthyImage (SchoolBase.image d)); reflexivity.
Qed.

Lemma newErrors_other_key d k :
  ~ In k ["name"; "address"; "city"; "state"; "contact"; "email_id"; "image"] ->
  newErrors d !! k = None.
Proof.
  simpl. intros Hk.
  assert ("name" <> k /\ "address" <> k /\ "city" <> k /\ "state" <> k
          /\ "contact" <> k /\ "email_id" <> k /\ "image" <> k)
    as (? & ? & ? & ? & ? & ? & ?) by tauto.
  unfold newErrors. cbv zeta.
  strip_other_keys k. apply lookup_empty.
Qed.

(** X1.  The four plain text fields and the image: [validateForm]
    reports Required for a text field exactly when its value is empty or
    only whitespace, and for the image exactly when none is attached
    ([null] or the empty text). *)
Theorem validateForm_required (st : FormState) :
  let e := errors (fst (validateForm st)) in
  (forall field,
     e !! requiredKey field
     = if blank (requiredValue field (formData st))
       then Some (requiredMessage field) else None)
  /\ (e !! "image" = None <->
      exists img, SchoolBase.image (formData st) = Some img /\ img <> "")
  /\ (e !! "image" = None \/ e !! "image" = Some MSG_IMAGE_REQUIRED).
Proof.
  simpl. split; [intros field; apply newErrors_required|].
  rewrite newErrors_image.
  destruct (SchoolBase.image (formData st)) as [img|]; simpl.
  - unfold truthy. destruct (String.eqb_spec img "") as [->|Hne]; simpl.
    + split; [|right; reflexivity].
      split; [discriminate | intros (i & [= <-] & Hi); contradiction].
    + split; [|left; reflexivity].
      split; [intros _; exists img; auto | reflexivity].
  - split; [|right; reflexivity].
    split; [discriminate | intros (i & Hi & _); discriminate].
Qed.

(** X2.  The verdict of [validateForm]: it answers [true] exactly when
    the four text fields are not blank, the contact is ten decimal
    digits, the email has the shape [local@domain.tld] and an image is
    attached. *)
Theorem validateForm_verdict (st : FormState) :
  let d := formData st in
  snd (validateForm st) = true <->
  (forall field, blank (requiredValue field d) = false)
  /\ ten_digits (SchoolBase.contact d) = true
  /\ local_at_domain_tld (SchoolBase.email_id d)
  /\ exists img, SchoolBase.image d = Some img /\ img <> "".
Proof.
  simpl. rewrite Nat.eqb_eq, map_size_empty_iff. split.
  - intros Hempty.
    assert (Hk : forall k, newErrors (formData st) !! k = None)
      by (intros k; rewrite Hempty; apply lookup_empty).
    split; [|split; [|split]].
    + intros field. specialize (Hk (requiredKey field)).
      rewrite newErrors_required in Hk.
      destruct (blank (requiredValue field (formData st))); congruence.
    + specialize (Hk "contact"). rewrite newErrors_contact in Hk.
      destruct (blank (SchoolBase.contact (formData st))); [discriminate|].
      destruct (ten_digits (SchoolBase.contact (formData st))); congruence.
    + specialize (Hk "email_id"). rewrite newErrors_email_id in Hk.
      destruct (blank (SchoolBase.email_id (formData st))); [discriminate|].
      destruct (test EMAIL_RE (SchoolBase.email_id (formData st))) eqn:Ht;
        [apply test_EMAIL_RE, Ht | discriminate].
    + specialize (Hk "image"). rewrite newErrors_image in Hk.
      destruct (SchoolBase.image (formData st)) as [img|]; simpl in Hk;
        [|discriminate].
      exists img. split; [reflexivity|]. intros ->. discriminate.
  - intros (Hreq & Hcontact & Hemail & img & Himg & Hne).
    apply map_eq. intros k. rewrite lookup_empty.
    destruct (decide (In k ["name"; "address"; "city"; "state"; "contact";
                            "email_id"; "image"])) as [Hin|Hout];
      [|apply newErrors_other_key, Hout].
    simpl in Hin.
    destruct Hin as [<-|[<-|[<-|[<-|[<-|[<-|[<-|[]]]]]]]].
    + rewrite (newErrors_required _ RName), (Hreq RName). reflexivity.
    + rewrite (newErrors_required _ RAddress), (Hreq RAddress). reflexivity.
    + rewrite (newErrors_required _ RCity), (Hreq RCity). reflexivity.
    + rewrite (newErrors_required _ RState), (Hreq RState). reflexivity.
    + rewrite newErrors_contact, Hcontact.
      destruct (blank (SchoolBase.contact (formData st))) eqn:Hb; [|reflexivity].
      apply blank_not_ten_digits in Hb. congruence.
    + rewrite newErrors_email_id.
      destruct (blank (SchoolBase.email_id (formData st))) eqn:Hb.
      * apply blank_not_local_at_domain_tld in Hb. contradiction.
      * apply test_EMAIL_RE in Hemail. rewrite Hemail. reflexivity.
    + rewrite newErrors_image, Himg. simpl. unfold truthy.
      apply String.eqb_neq in Hne. rewrite Hne. reflexivity.
Qed.

(** X3.  Every error that [validateForm] stores sits under one of the
    seven field keys, never under ["submit"], and its message is not
    empty, so it is displayed. *)
Theorem validateForm_error_keys (st : FormState) (k m : string) :
  errors (fst (validateForm st)) !! k = Some m ->
  In k ["name"; "address"; "city"; "state"; "contact"; "email_id"; "image"]
  /\ k <> "submit"
  /\ truthy m = true.
Proof.
  simpl. intros Hk.
  destruct (decide (In k ["name"; "address"; "city"; "state"; "contact";
                          "email_id"; "image"])) as [Hin|Hout];
    [|rewrite (newErrors_other_key _ _ Hout) in Hk; discriminate].
  split; [exact Hin|]. simpl in Hin.
  destruct Hin as [<-|[<-|[<-|[<-|[<-|[<-|[<-|[]]]]]]]];
    (split; [discriminate|]).
  - rewrite (newErrors_required _ RName) in Hk.
    destruct (blank _); simplify_eq; reflexivity.
  - rewrite (newErrors_required _ RAddress) in Hk.
    destruct (blank _); simplify_eq; reflexivity.
  - rewrite (newErrors_required _ RCity) in Hk.
    destruct (blank _); simplify_eq; reflexivity.
  - rewrite (newErrors_required _ RState) in Hk.
    destruct (blank _); simplify_eq; reflexivity.
  - rewrite newErrors_contact in Hk.
    destruct (blank _); [|destruct (ten_digits _)]; simplify_eq; reflexivity.
  - rewrite newErrors_email_id in Hk.
    destruct (blank _); [|destruct (test _ _)]; simplify_eq; reflexivity.
  - rewrite newErrors_image in Hk.
    destruct (truthyImage _); simplify_eq; reflexivity.
Qed.

Lemma validateForm_error_keys_witness :
  errors (fst (validateForm initialFormState)) !! "city" = Some MSG_CITY_REQUIRED
  /\ "city" <> "submit"
  /\ truthy MSG_CITY_REQUIRED = true.
Proof.
  split; [reflexivity|].
  apply (validateForm_error_keys initialFormState "city" MSG_CITY_REQUIRED).
  reflexivity.
Defined.

Lemma notSpaceNorAt_all w :
  forallb notSpaceNorAt w = true ->
  count_occ ascii_dec w "@"%char = 0
  /\ forallb (fun c => negb (isWhiteSpace c)) w = true.
Proof.
  induction w as [|c w IH]; simpl; [auto|].
  rewrite andb_true_iff. intros [Hc Hw]. destruct (IH Hw) as [Hcount Hws].
  unfold notSpaceNorAt in Hc. apply negb_true_iff, orb_false_iff in Hc as [Hs Hat].
  rewrite Hs, Hws. split; [|reflexivity].
  destruct (ascii_dec c "@") as [->|_]; [discriminate | exact Hcount].
Qed.

(** X4.  An email that passes validation contains exactly one ["@"] and no
    whitespace at all, and is at least five code units long. *)
Theorem accepted_email_shape (st : FormState) :
  errors (fst (validateForm st)) !! "email_id" = None ->
  let w := list_ascii_of_string (SchoolBase.email_id (formData st)) in
  count_occ ascii_dec w "@"%char = 1
  /\ forallb (fun c => negb (isWhiteSpace c)) w = true
  /\ 5 <= String.length (SchoolBase.email_id (formData st)).
Proof.
  simpl. rewrite newErrors_email_id.
  destruct (blank _); [discriminate|].
  destruct (test EMAIL_RE _) eqn:Ht; [intros _ | discriminate].
  apply test_EMAIL_RE in Ht as (l & d & t & Hs & Hl & Hd & Ht & Hall).
  rewrite <- length_list_ascii_of_string, Hs.
  rewrite !forallb_app, !andb_true_iff in Hall. destruct Hall as (Hl' & Hd' & Ht').
  apply notSpaceNorAt_all in Hl' as [Cl Wl], Hd' as [Cd Wd], Ht' as [Ct Wt].
  split; [|split].
  - rewrite count_occ_app. simpl. rewrite count_occ_app. simpl. lia.
  - rewrite forallb_app. simpl. rewrite forallb_app. simpl.
    rewrite Wl, Wd, Wt. reflexivity.
  - rewrite length_app. simpl. rewrite length_app. simpl.
    destruct l, d, t; simpl; try contradiction; lia.
Qed.

Lemma accepted_email_shape_witness :
  let st := mkFormState validCandidate ∅ false None in
  errors (fst (validateForm st)) !! "email_id" = None
  /\ count_occ ascii_dec (list_ascii_of_string "office@oakhill.edu") "@"%char = 1.
Proof.
  split; [reflexivity|].
  apply (accepted_email_shape (mkFormState validCandidate ∅ false None)).
  reflexivity.
Defined.

(** ** Editing the form *)

Lemma setField_same field v d : getField field d = v -> setField field v d = d.
Proof. destruct field, d; simpl; intros ->; reflexivity. Qed.

Lemma handleChange_unfold field v st :
  handleChange field v st
  = mkFormState (setField field v (formData st))
      (if truthyError (errors st) (fieldKey field)
       then <[fieldKey field := ""]> (errors st) else errors st)
      (loading st) (imagePreview st).
Proof.
  unfold handleChange.
  destruct (String.eqb_spec (getField field (formData st)) v) as [He|_];
    [rewrite (setField_same _ _ _ He)|]; reflexivity.
Qed.

Lemma getField_setField field v d : getField field (setField field v d) = v.
Proof. destruct field; reflexivity. Qed.

Lemma getField_setField_ne f g v d :
  g <> f -> getField g (setField f v d) = getField g d.
Proof. destruct f, g; simpl; intros H; try reflexivity; contradiction. Qed.

Lemma fieldKey_inj f g : fieldKey f = fieldKey g -> f = g.
Proof. destruct f, g; simpl; intros H; try reflexivity; discriminate. Qed.

Lemma truthyError_cleared e k :
  truthyError (if truthyError e k then <[k := ""]> e else e) k = false.
Proof.
  destruct (truthyError e k) eqn:He; [|exact He].
  unfold truthyError. rewrite lookup_insert_eq. reflexivity.
Qed.

Lemma truthyError_other e k k' :
  k <> k' ->
  truthyError (if truthyError e k then <[k := ""]> e else e) k' = truthyError e k'.
Proof.
  intros Hne. destruct (truthyError e k); [|reflexivity].
  unfold truthyError. rewrite lookup_insert_ne by exact Hne. reflexivity.
Qed.

(** X5.  [handleChange] sets the edited field to the typed value and
    leaves the other fields and the image alone; afterwards no message
    is displayed for that field, the messages of the other keys are as
    before, and no key is ever removed from the error object. *)
Theorem handleChange_effect (field : TextField) (value : string) (st : FormState) :
  let st' := handleChange field value st in
  getField field (formData st') = value
  /\ (forall g, g <> field ->
        getField g (formData st') = getField g (formData st))
  /\ SchoolBase.image (formData st') = SchoolBase.image (formData st)
  /\ truthyError (errors st') (fieldKey field) = false
  /\ (forall k, k <> fieldKey field -> errors st' !! k = errors st !! k)
  /\ dom (errors st') = dom (errors st)
  /\ loading st' = loading st
  /\ imagePreview st' = imagePreview st.
Proof.
  cbv zeta. rewrite handleChange_unfold. simpl.
  split; [apply getField_setField|].
  split; [intros g Hg; apply getField_setField_ne, Hg|].
  split; [destruct field; reflexivity|].
  split; [apply truthyError_cleared|].
  split; [|split; [|split; reflexivity]].
  - intros k Hk. destruct (truthyError _ _); [|reflexivity].
    apply lookup_insert_ne. congruence.
  - destruct (truthyError (errors st) (fieldKey field)) eqn:He; [|reflexivity].
    unfold truthyError in He.
    destruct (errors st !! fieldKey field) as [m|] eqn:Hm; [|discriminate].
    apply dom_insert_lookup_L. rewrite Hm. eauto.
Qed.

(** X6.  Edits compose: of two edits of one field the later wins (so an
    edit repeated changes nothing more), and edits of different fields
    can be made in either order. *)
Theorem handleChange_compose (f g : TextField) (v w : string) (st : FormState) :
  handleChange f v (handleChange f w st) = handleChange f v st
  /\ (f <> g ->
      handleChange f v (handleChange g w st) = handleChange g w (handleChange f v st)).
Proof.
  split.
  - rewrite !handleChange_unfold. simpl. rewrite truthyError_cleared.
    f_equal. destruct f; reflexivity.
  - intros Hfg. rewrite !handleChange_unfold. simpl.
    assert (Hk : fieldKey g <> fieldKey f)
      by (intros H; apply fieldKey_inj in H; congruence).
    rewrite (truthyError_other _ _ _ Hk).
    rewrite (truthyError_other _ _ _ (not_eq_sym Hk)).
    f_equal.
    + destruct f, g; try reflexivity; contradiction.
    + destruct (truthyError (errors st) (fieldKey f)),
               (truthyError (errors st) (fieldKey g)); try reflexivity.
      apply insert_insert_ne. congruence.
Qed.

(** ** The image gate followed by validation *)

(** X7.  Validation after a file selection never reports TooLarge, it only
    asks whether an image is attached.  After a refused file the verdict
    on the image is the one for the image attached before (an earlier
    image stays attached and the TooLarge message is dropped); after an
    accepted file it is the one for what the reader produced. *)
Theorem validateForm_after_handleImageChange
    (st : FormState) (file : File) (rest : list File) :
  let st' := handleImageChange (Some (file :: rest)) st in
  let e := errors (fst (validateForm st')) !! "image" in
  ((size_bytes file > 5000000)%Z ->
     e = if truthyImage (SchoolBase.image (formData st)) then None
         else Some MSG_IMAGE_REQUIRED)
  /\ ((size_bytes file <= 5000000)%Z ->
      e = if truthyImage (readResult file) then None else Some MSG_IMAGE_REQUIRED)
  /\ e <> Some MSG_IMAGE_TOO_LARGE.
Proof.
  simpl. rewrite newErrors_image.
  destruct (Z.gtb_spec (size_bytes file) 5000000) as [Hgt|Hle]; simpl.
  - split; [reflexivity|]. split; [lia|]. destruct (truthyImage _); discriminate.
  - split; [lia|]. split; [reflexivity|]. destruct (truthyImage _); discriminate.
Qed.

(** ** Submission: the other two paths *)

(** X8.  A form that fails validation is not submitted: the gateway is
    not called (the storage is as it was), [onSuccess] is not called,
    the form shows the validation errors, of which there is at least
    one, and keeps its data and its loading flag. *)
Theorem handleSubmit_blocked
    (now : Date) (storage : LocalStorage) (st : FormState) :
  snd (validateForm st) = false ->
  let out := handleSubmit now storage st in
  storage_after out = storage
  /\ onSuccess out = false
  /\ errors (form out) = newErrors (formData st)
  /\ errors (form out) <> ∅
  /\ formData (form out) = formData st
  /\ loading (form out) = loading st.
Proof.
  intros Hinvalid. unfold handleSubmit.
  unfold validateForm in *. simpl in Hinvalid. rewrite Hinvalid. simpl.
  repeat split. intros Hempty. apply map_size_empty_iff in Hempty.
  apply Nat.eqb_neq in Hinvalid. contradiction.
Qed.

Lemma handleSubmit_blocked_witness :
  let storage := mkLocalStorage (Records [oakHill]) true in
  snd (validateForm initialFormState) = false
  /\ storage_after (handleSubmit noon storage initialFormState) = storage
  /\ onSuccess (handleSubmit noon storage initialFormState) = false.
Proof.
  split; [reflexivity|].
  destruct (handleSubmit_blocked noon (mkLocalStorage (Records [oakHill]) true)
              initialFormState eq_refl) as (Hs & Ho & _).
  split; [exact Hs | exact Ho].
Defined.

(** X9.  [onSuccess] is called exactly when validation passes, the stored
    text reads as records and the write is accepted; the storage then
    holds the old records followed by the form's data under the next id,
    the form has no errors and is no longer loading.  On every path the
    form keeps its data. *)
Theorem handleSubmit_stores
    (now : Date) (storage : LocalStorage) (st : FormState) :
  let out := handleSubmit now storage st in
  (onSuccess out = true <->
   snd (validateForm st) = true
   /\ (exists l, parseSchools (item_schools storage) = Ok l)
   /\ acceptsWrite storage = true)
  /\ (onSuccess out = true ->
      exists l,
        parseSchools (item_schools storage) = Ok l
        /\ item_schools (storage_after out)
           = Records (l ++ [mkSchool (Z.of_nat (length l) + 1) (formData st)
                              (toISOString now)])
        /\ errors (form out) = ∅
        /\ loading (form out) = false)
  /\ formData (form out) = formData st.
Proof.
  unfold handleSubmit, validateForm, addSchool. simpl.
  destruct (Nat.eqb (size (newErrors (formData st))) 0) eqn:Hv; simpl.
  - apply Nat.eqb_eq, map_size_empty_iff in Hv.
    destruct (parseSchools (item_schools storage)) as [l|e]; simpl.
    + destruct (acceptsWrite storage); simpl.
      * split; [split; eauto|]. split; [|reflexivity].
        intros _. exists l. rewrite Hv. auto.
      * split; [|split; [discriminate | reflexivity]].
        split; [discriminate | intros (_ & _ & H); discriminate].
    + split; [|split; [discriminate | reflexivity]].
      split; [discriminate | intros (_ & [l H] & _); discriminate].
  - split; [|split; [discriminate | reflexivity]].
    split; [discriminate | intros (H & _); discriminate].
Qed.

(** ** The gateway: ids and reading back *)

Lemma ids_sequential_snoc l s :
  ids_sequential l ->
  School.id s = (Z.of_nat (length l) + 1)%Z ->
  ids_sequential (l ++ [s]).
Proof.
  unfold ids_sequential. intros Hl Hs.
  rewrite List.map_app, length_app, Hl. simpl.
  rewrite Nat.add_1_r, seq_S, List.map_app. simpl.
  rewrite Hs. do 2 f_equal. lia.
Qed.

Lemma ids_sequential_NoDup l : ids_sequential l -> NoDup (List.map School.id l).
Proof.
  unfold ids_sequential. intros ->.
  apply (NoDup_fmap_2 Z.of_nat), NoDup_seq.
Qed.

(** X10.  Appending keeps the ids sequential: when the stored records
    have the ids 1, 2, ..., n in order (as the empty store does), so do
    the records after [addSchool], with n + 1 last; in particular no two
    stored records share an id. *)
Theorem addSchool_ids_sequential
    (now : Date) (storage storage' : LocalStorage) (schoolData : SchoolBase.t)
    (l : list School.t) (s : School.t) :
  parseSchools (item_schools storage) = Ok l ->
  ids_sequential l ->
  addSchool now storage schoolData = Ok (s, storage') ->
  item_schools storage' = Records (l ++ [s])
  /\ ids_sequential (l ++ [s])
  /\ NoDup (List.map School.id (l ++ [s])).
Proof.
  intros Hparse Hseq Hadd. unfold addSchool in Hadd. rewrite Hparse in Hadd.
  destruct (acceptsWrite storage); [|discriminate].
  injection Hadd as <- <-. simpl.
  assert (Hnew : ids_sequential
            (l ++ [mkSchool (Z.of_nat (length l) + 1) schoolData (toISOString now)]))
    by (apply ids_sequential_snoc; [exact Hseq | reflexivity]).
  split; [reflexivity|]. split; [exact Hnew | apply ids_sequential_NoDup, Hnew].
Qed.

Lemma addSchool_ids_sequential_witness :
  let storage := mkLocalStorage (Records [oakHill; oakridge]) true in
  let s := mkSchool 3 validCandidate "2024-03-09T12:00:00.000Z" in
  let storage' := mkLocalStorage (Records [oakHill; oakridge; s]) true in
  parseSchools (item_schools storage) = Ok [oakHill; oakridge]
  /\ ids_sequential [oakHill; oakridge]
  /\ addSchool noon storage validCandidate = Ok (s, storage')
  /\ ids_sequential [oakHill; oakridge; s].
Proof.
  split; [reflexivity|]. split; [reflexivity|]. split; [reflexivity|].
  apply (addSchool_ids_sequential noon
           (mkLocalStorage (Records [oakHill; oakridge]) true)
           (mkLocalStorage
              (Records [oakHill; oakridge;
                        mkSchool 3 validCandidate "2024-03-09T12:00:00.000Z"]) true)
           validCandidate [oakHill; oakridge]
           (mkSchool 3 validCandidate "2024-03-09T12:00:00.000Z")
           eq_refl eq_refl eq_refl).
Defined.



(** ** The listing view *)

Lemma truthy_false s : truthy s = false <-> s = "".
Proof.
  unfold truthy. rewrite negb_false_iff. apply String.eqb_eq.
Qed.

Lemma hasActiveFilters_false st :
  ShowSchools.hasActiveFilters st = false <-> ShowSchools.filters st = Filters.empty.
Proof.
  unfold ShowSchools.hasActiveFilters, Filters.empty.
  destruct (ShowSchools.filters st) as [n c s]; simpl.
  rewrite !orb_false_iff, !truthy_false. split.
  - intros [[-> ->] ->]. reflexivity.
  - intros [= -> -> ->]. auto.
Qed.

(** X12.  What the view shows.  "No schools added yet" appears exactly when
    loading is over, no record is stored and no filter is active (a
    filter of whitespace counts as active); a grid is never empty and
    holds the records that match the committed filter; with no active
    filter all records match; and a stored value that is not an array
    makes the render throw. *)
Theorem render_views (st : ShowSchools.state) :
  (ShowSchools.render st = Ok NoSchoolsAddedYet <->
   ShowSchools.schools st = JArray [] /\ ShowSchools.loading st = false
   /\ ShowSchools.hasActiveFilters st = false)
  /\ (forall cards, ShowSchools.render st = Ok (Grid cards) ->
        cards <> []
        /\ exists l, ShowSchools.schools st = JArray l
                     /\ cards = filteredSchools l (ShowSchools.filters st))
  /\ (forall l, ShowSchools.hasActiveFilters st = false ->
        filteredSchools l (ShowSchools.filters st) = l)
  /\ (ShowSchools.render st = Throw TypeError <-> ShowSchools.schools st = JOther).
Proof.
  assert (Hall : forall l, ShowSchools.hasActiveFilters st = false ->
                   filteredSchools l (ShowSchools.filters st) = l).
  { intros l Hn. apply hasActiveFilters_false in Hn. rewrite Hn. reflexivity. }
  unfold ShowSchools.render.
  destruct (ShowSchools.schools st) as [l|]; simpl.
  - destruct (ShowSchools.loading st); simpl.
    + repeat split; try discriminate; try exact Hall.
      intros (_ & H & _). discriminate.
    + destruct (ShowSchools.hasActiveFilters st) eqn:Ha.
      * destruct (Nat.eqb (length (filteredSchools l (ShowSchools.filters st))) 0) eqn:Hn;
          (split; [split; [discriminate | intros (_ & _ & H); discriminate]|]);
          (split; [|split; [exact Hall | split; discriminate]]).
        -- discriminate.
        -- intros cards [= <-]. apply Nat.eqb_neq in Hn.
           split; [|eauto]. intros H. rewrite H in Hn. contradiction.
      * rewrite (Hall l eq_refl).
        destruct l as [|s l]; simpl.
        -- repeat split; try discriminate; try exact Hall.
        -- split; [split; [discriminate | intros ([= ] & _)]|].
           split; [|split; [exact Hall | split; discriminate]].
           intros cards [= <-]. split; [discriminate|].
           exists (s :: l). rewrite (Hall _ eq_refl). auto.
  - repeat split; try discriminate; try exact Hall.
    intros (H & _). discriminate.
Qed.

Example active_whitespace_filter :
  let st := ShowSchools.mk (JArray []) false (Filters.mk " " "" "")
              Filters.empty Shown.none in
  ShowSchools.hasActiveFilters st = true
  /\ ShowSchools.render st = Ok NoSchoolsFound.
Proof. split; reflexivity. Qed.

Lemma dispatch_draft st ev :
  ShowSchools.commits ev = false ->
  ShowSchools.filters (ShowSchools.dispatch st ev) = ShowSchools.filters st
  /\ ShowSchools.schools (ShowSchools.dispatch st ev) = ShowSchools.schools st
  /\ ShowSchools.loading (ShowSchools.dispatch st ev) = ShowSchools.loading st.
Proof.
  destruct ev as [f v|f v|f|f|key| |]; simpl; intros Hc; try discriminate;
    try (repeat split; reflexivity).
  - unfold ShowSchools.onFocus. destruct (truthy _); repeat split; reflexivity.
  - unfold ShowSchools.handleKeyPress. rewrite Hc. repeat split; reflexivity.
Qed.

(** X13.  The commit protocol.  Whatever is typed, picked from a
    suggestion list, focused, blurred or keyed (short of Enter), in any
    number and order, the committed filter, the records and hence the
    rendered view stay as they were; a click on Search, or Enter, makes
    the draft the committed filter and keeps the draft. *)
Theorem drafts_do_not_refilter (st : ShowSchools.state) (evs : list ShowSchools.event) :
  forallb (fun ev => negb (ShowSchools.commits ev)) evs = true ->
  let st' := fold_left ShowSchools.dispatch evs st in
  ShowSchools.filters st' = ShowSchools.filters st
  /\ ShowSchools.render st' = ShowSchools.render st
  /\ ShowSchools.filters (ShowSchools.dispatch st' ShowSchools.SearchClicked)
     = ShowSchools.tempFilters st'
  /\ ShowSchools.dispatch st' (ShowSchools.KeyPressed "Enter")
     = ShowSchools.dispatch st' ShowSchools.SearchClicked
  /\ ShowSchools.tempFilters (ShowSchools.dispatch st' ShowSchools.SearchClicked)
     = ShowSchools.tempFilters st'.
Proof.
  intros Hevs. simpl.
  assert (H : ShowSchools.filters (fold_left ShowSchools.dispatch evs st)
              = ShowSchools.filters st
              /\ ShowSchools.schools (fold_left ShowSchools.dispatch evs st)
                 = ShowSchools.schools st
              /\ ShowSchools.loading (fold_left ShowSchools.dispatch evs st)
                 = ShowSchools.loading st).
  { revert st. induction evs as [|ev evs IH]; intros st; simpl in *; [auto|].
    apply andb_true_iff in Hevs as [Hev Hevs]. apply negb_true_iff in Hev.
    destruct (IH Hevs (ShowSchools.dispatch st ev)) as (-> & -> & ->).
    apply dispatch_draft, Hev. }
  destruct H as (Hf & Hs & Hl).
  split; [exact Hf|]. split; [|repeat split].
  unfold ShowSchools.render, ShowSchools.hasActiveFilters.
  rewrite Hf, Hs, Hl. reflexivity.
Qed.

Lemma drafts_do_not_refilter_witness :
  let st := ShowSchools.mk (JArray [oakHill; oakridge]) false
              (Filters.mk "" "austin" "") (Filters.mk "" "austin" "") Shown.none in
  let evs := [ShowSchools.Typed FName "oakr"; ShowSchools.Picked FName "Oakridge";
              ShowSchools.KeyPressed "Tab"; ShowSchools.Blurred FName] in
  forallb (fun ev => negb (ShowSchools.commits ev)) evs = true
  /\ ShowSchools.render (fold_left ShowSchools.dispatch evs st) = Ok (Grid [oakHill]).
Proof.
  split; [reflexivity|].
  destruct (drafts_do_not_refilter
              (ShowSchools.mk (JArray [oakHill; oakridge]) false
                 (Filters.mk "" "austin" "") (Filters.mk "" "austin" "") Shown.none)
              [ShowSchools.Typed FName "oakr"; ShowSchools.Picked FName "Oakridge";
               ShowSchools.KeyPressed "Tab"; ShowSchools.Blurred FName] eq_refl)
    as (_ & Hr & _).
  rewrite Hr. reflexivity.
Defined.

(** X14.  Clearing: after [clearFilters] every stored record is shown (or
    "No schools added yet" when there is none), the draft is empty and
    no suggestion list is on screen. *)
Theorem clearFilters_shows_all (st : ShowSchools.state) (l : list School.t) :
  ShowSchools.schools st = JArray l ->
  ShowSchools.loading st = false ->
  let st' := ShowSchools.clearFilters st in
  ShowSchools.render st'
  = Ok (match l with [] => NoSchoolsAddedYet | _ => Grid l end)
  /\ ShowSchools.tempFilters st' = Filters.empty
  /\ (forall field, ShowSchools.dropdown l st' field = false).
Proof.
  intros Hs Hl. unfold ShowSchools.render. simpl. rewrite Hs, Hl. simpl.
  split; [destruct l; reflexivity|]. split; [reflexivity|].
  intros field. destruct field; reflexivity.
Qed.

Lemma clearFilters_shows_all_witness :
  let st := ShowSchools.mk (JArray [oakHill; oakridge]) false
              (Filters.mk "zzz" "" "") (Filters.mk "zz" "" "") Shown.none in
  ShowSchools.schools st = JArray [oakHill; oakridge]
  /\ ShowSchools.loading st = false
  /\ ShowSchools.render st = Ok NoSchoolsFound
  /\ ShowSchools.render (ShowSchools.clearFilters st) = Ok (Grid [oakHill; oakridge]).
Proof.
  split; [reflexivity|]. split; [reflexivity|]. split; [reflexivity|].
  apply (clearFilters_shows_all
           (ShowSchools.mk (JArray [oakHill; oakridge]) false
              (Filters.mk "zzz" "" "") (Filters.mk "zz" "" "") Shown.none)
           [oakHill; oakridge] eq_refl eq_refl).
Defined.

(** X15.  From the form to the list: when a valid form is submitted to a
    storage that can be read and written, and the listing view then
    loads, the view holds the old records followed by the new one, is no
    longer loading, and with no active filter renders them all in a
    grid. *)
Theorem submitted_school_is_listed
    (now : Date) (storage : LocalStorage) (st : FormState)
    (view : ShowSchools.state) (l : list School.t) :
  snd (validateForm st) = true ->
  parseSchools (item_schools storage) = Ok l ->
  acceptsWrite storage = true ->
  let out := handleSubmit now storage st in
  let view' := ShowSchools.loadSchools (storage_after out) view in
  let all := l ++ [mkSchool (Z.of_nat (length l) + 1) (formData st) (toISOString now)] in
  onSuccess out = true
  /\ ShowSchools.schools view' = JArray all
  /\ ShowSchools.loading view' = false
  /\ (ShowSchools.hasActiveFilters view = false ->
      ShowSchools.render view' = Ok (Grid all)).
Proof.
  intros Hvalid Hparse Hwrite.
  unfold handleSubmit, addSchool.
  destruct (validateForm st) as [st1 valid] eqn:Hv. simpl in Hvalid. subst valid.
  simpl. rewrite Hparse, Hwrite. simpl.
  unfold ShowSchools.loadSchools. simpl.
  split; [reflexivity|]. split; [reflexivity|]. split; [reflexivity|].
  intros Hn. unfold ShowSchools.render. simpl.
  assert (Hn' : ShowSchools.hasActiveFilters
                  (ShowSchools.mk
                     (JArray (l ++ [mkSchool (Z.of_nat (length l) + 1) (formData st)
                                      (toISOString now)]))
                     false (ShowSchools.filters view) (ShowSchools.tempFilters view)
                     (ShowSchools.showSuggestions view)) = false) by exact Hn.
  rewrite Hn'. apply hasActiveFilters_false in Hn. rewrite Hn.
  rewrite filteredSchools_one_pass, filter_all by reflexivity.
  rewrite length_app. simpl. rewrite Nat.add_1_r. reflexivity.
Qed.

Lemma submitted_school_is_listed_witness :
  let storage := mkLocalStorage (Records [oakHill; oakridge]) true in
  let st := mkFormState validCandidate ∅ false None in
  snd (validateForm st) = true
  /\ parseSchools (item_schools storage) = Ok [oakHill; oakridge]
  /\ acceptsWrite storage = true
  /\ ShowSchools.render
       (ShowSchools.loadSchools (storage_after (handleSubmit noon storage st))
          ShowSchools.initial)
     = Ok (Grid [oakHill; oakridge;
                 mkSchool 3 validCandidate "2024-03-09T12:00:00.000Z"]).
Proof.
  split; [reflexivity|]. split; [reflexivity|]. split; [reflexivity|].
  destruct (submitted_school_is_listed noon
              (mkLocalStorage (Records [oakHill; oakridge]) true)
              (mkFormState validCandidate ∅ false None)
              ShowSchools.initial [oakHill; oakridge] eq_refl eq_refl eq_refl)
    as (_ & _ & _ & Hr).
  apply Hr. reflexivity.
Defined.

(** A failed load is swallowed: the records stay, the spinner goes. *)
Example loadSchools_failure st :
  ShowSchools.loadSchools (mkLocalStorage NotJSON true) st
  = ShowSchools.mk (ShowSchools.schools st) false (ShowSchools.filters st)
      (ShowSchools.tempFilters st) (ShowSchools.showSuggestions st).
Proof. reflexivity. Qed.

(** ** Suggestions and search together *)

Lemma toLowerCase_empty s : toLowerCase s = "" <-> s = "".
Proof. destruct s; simpl; split; intros H; try reflexivity; discriminate. Qed.

Lemma getSuggestions_unfold schools temp field :
  Filters.get field temp <> "" ->
  getSuggestions schools temp field
  = firstn 5
      (List.filter (fun item => ci_prefix (Filters.get field temp) item)
         (Set_from (List.map (schoolField field) schools))).
Proof.
  intros Hne. unfold getSuggestions, uniqueValues, ci_prefix.
  destruct (truthy (toLowerCase (Filters.get field temp))) eqn:Ht; [reflexivity|].
  apply (proj1 (truthy_false _)), (proj1 (toLowerCase_empty _)) in Ht.
  contradiction.
Qed.

Lemma getSuggestions_empty_draft schools temp field :
  Filters.get field temp = "" -> getSuggestions schools temp field = [].
Proof. unfold getSuggestions. intros ->. reflexivity. Qed.

Lemma getSuggestions_In schools temp field v :
  In v (getSuggestions schools temp field) ->
  Filters.get field temp <> ""
  /\ ci_prefix (Filters.get field temp) v = true
  /\ exists s, In s schools /\ schoolField field s = v.
Proof.
  intros Hv.
  destruct (String.eqb_spec (Filters.get field temp) "") as [He|Hne].
  { rewrite (getSuggestions_empty_draft _ _ _ He) in Hv. contradiction. }
  split; [exact Hne|].
  rewrite (getSuggestions_unfold _ _ _ Hne) in Hv.
  apply list_elem_of_In in Hv.
  eapply elem_of_sublist in Hv; [|apply sublist_take].
  apply list_elem_of_In, List.filter_In in Hv as [Hin Hp].
  split; [exact Hp|].
  apply Set_from_In, in_map_iff in Hin as (s & Hs & Hin). eauto.
Qed.

Lemma prefix_refl s : String.prefix s s = true.
Proof.
  induction s as [|c s IH]; simpl; [reflexivity|].
  destruct (ascii_dec c c); [exact IH | congruence].
Qed.

Lemma prefix_includes s p : String.prefix p s = true -> includes s p = true.
Proof. intros H. destruct s; cbn [includes]; rewrite H; reflexivity. Qed.

Lemma Filters_get_set field v f : Filters.get field (Filters.set field v f) = v.
Proof. destruct field; reflexivity. Qed.

Lemma Filters_get_set_ne field g v f :
  g <> field -> Filters.get g (Filters.set field v f) = Filters.get g f.
Proof. destruct field, g; simpl; intros H; try reflexivity; contradiction. Qed.

Lemma matching_single_field f field s :
  (forall g, g <> field -> trim (Filters.get g f) = "") ->
  ci_substring (Filters.get field f) (schoolField field s) = true ->
  matching_nonblank f s = true.
Proof.
  intros Hothers Hfield. unfold matching_nonblank, constraint_nonblank.
  destruct field.
  - rewrite Hfield, (Hothers FCity), (Hothers FState) by discriminate.
    rewrite orb_true_r. reflexivity.
  - rewrite Hfield, (Hothers FName), (Hothers FState) by discriminate.
    rewrite orb_true_r. reflexivity.
  - rewrite Hfield, (Hothers FName), (Hothers FCity) by discriminate.
    rewrite orb_true_r. reflexivity.
Qed.

(** X16.  Picking a suggestion and searching finds its records: when the
    other two drafts are blank, after [selectSuggestion] and
    [handleSearch] the committed filter keeps every record whose field
    is the picked value, and there is at least one. *)
Theorem picked_suggestion_is_found
    (l : list School.t) (st : ShowSchools.state) (field : FilterField) (v : string) :
  In v (getSuggestions l (ShowSchools.tempFilters st) field) ->
  (forall g, g <> field -> trim (Filters.get g (ShowSchools.tempFilters st)) = "") ->
  let st' := ShowSchools.handleSearch (ShowSchools.selectSuggestion field v st) in
  (exists s, In s l /\ schoolField field s = v)
  /\ (forall s, In s l -> schoolField field s = v ->
        In s (filteredSchools l (ShowSchools.filters st'))).
Proof.
  intros Hv Hothers. simpl.
  apply getSuggestions_In in Hv as (_ & _ & Hex). split; [exact Hex|].
  intros s Hs Hsv. rewrite filteredSchools_one_pass. apply List.filter_In.
  split; [exact Hs|]. apply (matching_single_field _ field).
  - intros g Hg. rewrite Filters_get_set_ne by exact Hg. apply Hothers, Hg.
  - rewrite Filters_get_set, Hsv. unfold ci_substring.
    apply prefix_includes, prefix_refl.
Qed.

Lemma picked_suggestion_is_found_witness :
  let st := ShowSchools.mk (JArray [oakHill; oakridge]) false Filters.empty
              (Filters.mk "oakr" "" "") (Shown.mk true false false) in
  In "Oakridge" (getSuggestions [oakHill; oakridge] (ShowSchools.tempFilters st) FName)
  /\ In oakridge
       (filteredSchools [oakHill; oakridge]
          (ShowSchools.filters
             (ShowSchools.handleSearch
                (ShowSchools.selectSuggestion FName "Oakridge" st)))).
Proof.
  split; [left; reflexivity|].
  assert (Hothers : forall g, g <> FName ->
            trim (Filters.get g (Filters.mk "oakr" "" "")) = "")
    by (intros [] Hg; [contradiction | reflexivity | reflexivity]).
  destruct (picked_suggestion_is_found [oakHill; oakridge]
              (ShowSchools.mk (JArray [oakHill; oakridge]) false Filters.empty
                 (Filters.mk "oakr" "" "") (Shown.mk true false false))
              FName "Oakridge" (or_introl eq_refl) Hothers) as [_ Hfound].
  apply Hfound; [right; left; reflexivity | reflexivity].
Defined.

(** X17.  Suggestions agree with search: when the other two drafts are
    blank, searching with the draft as typed keeps every record whose
    field is one of the draft's suggestions (a prefix is a substring). *)
Theorem suggested_records_match_draft
    (l : list School.t) (st : ShowSchools.state) (field : FilterField)
    (v : string) (s : School.t) :
  In v (getSuggestions l (ShowSchools.tempFilters st) field) ->
  (forall g, g <> field -> trim (Filters.get g (ShowSchools.tempFilters st)) = "") ->
  In s l ->
  schoolField field s = v ->
  In s (filteredSchools l (ShowSchools.filters (ShowSchools.handleSearch st))).
Proof.
  intros Hv Hothers Hs Hsv. simpl.
  apply getSuggestions_In in Hv as (_ & Hp & _).
  rewrite filteredSchools_one_pass. apply List.filter_In.
  split; [exact Hs|]. apply (matching_single_field _ field _ Hothers).
  rewrite Hsv. unfold ci_substring. apply prefix_includes. exact Hp.
Qed.

Lemma suggested_records_match_draft_witness :
  let st := ShowSchools.mk (JArray [oakHill; oakridge]) false Filters.empty
              (Filters.mk "OAK" "" "") (Shown.mk true false false) in
  In "Oak Hill" (getSuggestions [oakHill; oakridge] (ShowSchools.tempFilters st) FName)
  /\ In oakHill
       (filteredSchools [oakHill; oakridge]
          (ShowSchools.filters (ShowSchools.handleSearch st))).
Proof.
  split; [left; reflexivity|].
  assert (Hothers : forall g, g <> FName ->
            trim (Filters.get g (Filters.mk "OAK" "" "")) = "")
    by (intros [] Hg; [contradiction | reflexivity | reflexivity]).
  apply (suggested_records_match_draft [oakHill; oakridge]
           (ShowSchools.mk (JArray [oakHill; oakridge]) false Filters.empty
              (Filters.mk "OAK" "" "") (Shown.mk true false false))
           FName "Oak Hill" oakHill (or_introl eq_refl) Hothers
           (or_introl eq_refl) eq_refl).
Defined.

(** X18.  Suggestions are cut only at five: when fewer than five are
    returned for a non-empty draft, every value of the field that has
    the draft as a case-insensitive prefix is among them. *)
Theorem getSuggestions_complete
    (schools : list School.t) (tempFilters : Filters.t) (field : FilterField)
    (s : School.t) :
  length (getSuggestions schools tempFilters field) < 5 ->
  Filters.get field tempFilters <> "" ->
  In s schools ->
  ci_prefix (Filters.get field tempFilters) (schoolField field s) = true ->
  In (schoolField field s) (getSuggestions schools tempFilters field).
Proof.
  intros Hlen Hne Hs Hp. rewrite (getSuggestions_unfold _ _ _ Hne) in *.
  rewrite length_take in Hlen. rewrite firstn_all2 by lia.
  apply List.filter_In. split; [|exact Hp].
  apply Set_from_In, in_map, Hs.
Qed.

Lemma getSuggestions_complete_witness :
  length (getSuggestions [oakHill; oakridge] (Filters.mk "oak" "" "") FName) < 5
  /\ In "Oakridge" (getSuggestions [oakHill; oakridge] (Filters.mk "oak" "" "") FName).
Proof.
  split; [simpl; lia|].
  apply (getSuggestions_complete [oakHill; oakridge] (Filters.mk "oak" "" "")
           FName oakridge); [simpl; lia | discriminate | right; left; reflexivity
                            | reflexivity].
Defined.

(** X19.  When the suggestion list appears: right after text is typed
    into a filter input, its list is on screen exactly when the text is
    not empty and some record's field has it as a case-insensitive
    prefix. *)
Theorem dropdown_after_typing
    (l : list School.t) (st : ShowSchools.state) (field : FilterField) (value : string) :
  ShowSchools.dropdown l (ShowSchools.handleTempFilterChange field value st) field = true
  <-> value <> ""
      /\ exists s, In s l /\ ci_prefix value (schoolField field s) = true.
Proof.
  unfold ShowSchools.dropdown, ShowSchools.handleTempFilterChange. simpl.
  assert (Hshown : forall b sh, Shown.get field (Shown.set field b sh) = b)
    by (intros b sh; destruct field; reflexivity).
  rewrite Hshown, andb_true_iff, !Nat.ltb_lt.
  set (temp := Filters.set field value (ShowSchools.tempFilters st)).
  assert (Hget : Filters.get field temp = value) by apply Filters_get_set.
  split.
  - intros [Hlen Hsug].
    destruct (getSuggestions l temp field) as [|v r] eqn:Hr; [simpl in Hsug; lia|].
    assert (Hv : In v (getSuggestions l temp field)) by (rewrite Hr; left; reflexivity).
    apply getSuggestions_In in Hv as (Hne & Hp & s & Hs & Hsv).
    rewrite Hget in Hne, Hp. split; [exact Hne|].
    exists s. rewrite Hsv. auto.
  - intros (Hne & s & Hs & Hp). split; [destruct value; [contradiction | simpl; lia]|].
    rewrite getSuggestions_unfold by (rewrite Hget; exact Hne). rewrite Hget.
    assert (Hin : In (schoolField field s)
                    (List.filter (fun item => ci_prefix value item)
                       (Set_from (List.map (schoolField field) l)))).
    { apply List.filter_In. split; [apply Set_from_In, in_map, Hs | exact Hp]. }
    destruct (List.filter _ _); [contradiction | simpl; lia].
Qed.

(** ** Matching: case and composition *)

Lemma isWhiteSpace_toLowerCaseChar c :
  isWhiteSpace (toLowerCaseChar c) = isWhiteSpace c.
Proof. destruct c as [[] [] [] [] [] [] [] []]; vm_compute; reflexivity. Qed.

Lemma blank_toLowerCase s : blank (toLowerCase s) = blank s.
Proof.
  unfold blank. induction s as [|c s IH]; simpl; [reflexivity|].
  rewrite isWhiteSpace_toLowerCaseChar, IH. reflexivity.
Qed.

Lemma eqb_trim_blank s : String.eqb (trim s) "" = blank s.
Proof.
  pose proof (truthy_trim s) as H. unfold truthy in H.
  destruct (String.eqb (trim s) ""), (blank s); simpl in H; congruence.
Qed.

Lemma constraint_nonblank_case f g s field :
  toLowerCase (Filters.get field f) = toLowerCase (Filters.get field g) ->
  constraint_nonblank f s field = constraint_nonblank g s field.
Proof.
  intros H. unfold constraint_nonblank, ci_substring.
  rewrite !eqb_trim_blank, H.
  rewrite <- (blank_toLowerCase (Filters.get field f)), H, blank_toLowerCase.
  reflexivity.
Qed.

(** X20.  The case of the filter text does not matter: two committed
    filters whose texts agree field by field once lower-cased select the
    same records from any list. *)
Theorem filteredSchools_case_insensitive (l : list School.t) (f g : Filters.t) :
  (forall field,
     toLowerCase (Filters.get field f) = toLowerCase (Filters.get field g)) ->
  filteredSchools l f = filteredSchools l g.
Proof.
  intros H. rewrite !filteredSchools_one_pass. apply List.filter_ext. intros s.
  unfold matching_nonblank.
  rewrite (constraint_nonblank_case f g s FName (H FName)).
  rewrite (constraint_nonblank_case f g s FCity (H FCity)).
  rewrite (constraint_nonblank_case f g s FState (H FState)).
  reflexivity.
Qed.

Lemma filteredSchools_case_insensitive_witness :
  (forall field,
     toLowerCase (Filters.get field (Filters.mk "OAK h" "" "tx"))
     = toLowerCase (Filters.get field (Filters.mk "oak H" "" "TX")))
  /\ filteredSchools [oakHill; oakridge] (Filters.mk "OAK h" "" "tx") = [oakHill]
  /\ filteredSchools [oakHill; oakridge] (Filters.mk "oak H" "" "TX") = [oakHill].
Proof.
  assert (H : forall field,
            toLowerCase (Filters.get field (Filters.mk "OAK h" "" "tx"))
            = toLowerCase (Filters.get field (Filters.mk "oak H" "" "TX")))
    by (intros []; reflexivity).
  split; [exact H|]. split; [reflexivity|].
  rewrite <- (filteredSchools_case_insensitive [oakHill; oakridge] _ _ H).
  reflexivity.
Defined.

(** X21.  Matching works record by record: the result for two lists put
    end to end is the two results put end to end (so appending a record
    never changes which of the others match), filtering a result again
    with the same filter changes nothing, and the result is never longer
    than the input. *)
Theorem filteredSchools_composes (l l' : list School.t) (f : Filters.t) :
  filteredSchools (l ++ l') f = filteredSchools l f ++ filteredSchools l' f
  /\ filteredSchools (filteredSchools l f) f = filteredSchools l f
  /\ length (filteredSchools l f) <= length l.
Proof.
  rewrite !filteredSchools_one_pass. split; [apply List.filter_app|]. split.
  - rewrite filter_twice. apply List.filter_ext. intros s.
    destruct (matching_nonblank f s); reflexivity.
  - apply sublist_length, filter_sublist.
Qed.

(** ** The distinct values *)

Lemma Set_from_length xs : length (Set_from xs) <= length xs.
Proof.
  induction xs as [|x xs IH] using rev_ind; [simpl; lia|].
  rewrite Set_from_snoc, length_app. unfold Set_add. simpl.
  destruct (Set_has x (Set_from xs)); [|rewrite length_app; simpl]; lia.
Qed.

Lemma Set_from_NoDup_id xs : NoDup xs -> Set_from xs = xs.
Proof.
  induction xs as [|x xs IH] using rev_ind; intros Hnd; [reflexivity|].
  apply NoDup_app in Hnd as (Hxs & Hx & _).
  rewrite Set_from_snoc, (IH Hxs). unfold Set_add.
  destruct (Set_has x xs) eqn:Hhas; [|reflexivity].
  apply Set_has_In, list_elem_of_In in Hhas. exfalso.
  apply (Hx x Hhas). apply list_elem_of_In. left. reflexivity.
Qed.

(** X22.  [uniqueValues] lists every value that occurs in the field, each
    once; it is never longer than the record list, and when no two
    records share the value it is the list of the records' values, in
    the records' order. *)
Theorem uniqueValues_distinct (schools : list School.t) (field : FilterField) :
  NoDup (uniqueValues schools field)
  /\ (forall v, In v (uniqueValues schools field) <->
                exists s, In s schools /\ schoolField field s = v)
  /\ length (uniqueValues schools field) <= length schools
  /\ (NoDup (List.map (schoolField field) schools) ->
      uniqueValues schools field = List.map (schoolField field) schools).
Proof.
  unfold uniqueValues. split; [apply Set_from_NoDup|]. split; [|split].
  - intros v. rewrite Set_from_In, in_map_iff.
    split; intros (s & H1 & H2); exists s; auto.
  - etransitivity; [apply Set_from_length|]. rewrite length_map. lia.
  - apply Set_from_NoDup_id.
Qed.
